(** * Coverage difference report: a model of [src/main.ts]

    The action reads two SimpleCov result sets, computes a per-file coverage
    difference and publishes it as a pull-request comment.  This file embeds
    the formatter and the driver of [main.ts] and the coverage engine it
    imports, and proves the properties the specification states about them.

    JavaScript numbers are IEEE-754 binary64 values.  They are modelled by the
    standard library's [spec_float] at precision 53 and maximal exponent 1024,
    whose operations round to nearest, ties to even, exactly as the host does. *)

From Stdlib Require Import ZArith NArith Bool List Ascii String Lia.
From Stdlib Require Import Floats.SpecFloat.
From stdpp Require Import base list strings gmap pretty relations.

Open Scope Z_scope.

(** ** Numbers *)

Module Num.

Definition number := spec_float.

Definition prec : Z := 53.
Definition emax : Z := 1024.

Definition mul : number -> number -> number := SFmul prec emax.
Definition div : number -> number -> number := SFdiv prec emax.
Definition sub : number -> number -> number := SFsub prec emax.
Definition abs : number -> number := SFabs.

(** The number denoted by an integer literal (exact below 2^53). *)
Definition of_Z (z : Z) : number := binary_normalize prec emax z 0 false.

(** The number denoted by the decimal literal [m / 10^k]: both operands are
    exact, so the correctly rounded quotient is the literal's value. *)
Definition dec (m : Z) (k : nat) : number := div (of_Z m) (of_Z (10 ^ Z.of_nat k)).

(** [a === b] on numbers: NaN differs from itself, the two zeros are equal. *)
Definition strict_eq (a b : number) : bool := SFeqb a b.

(** The sign bit; NaN is taken as unsigned. *)
Definition signbit (x : number) : bool :=
  match x with
  | S754_zero s | S754_infinity s | S754_finite s _ _ => s
  | S754_nan => false
  end.

(** [x < 0], false on NaN and on both zeros. *)
Definition ltb (a b : number) : bool := SFltb a b.

(** [Math.sign]: NaN and the zeros are returned unchanged. *)
Definition Math_sign (x : number) : number :=
  match x with
  | S754_nan => S754_nan
  | S754_zero _ => x
  | S754_infinity s | S754_finite s _ _ => if s then of_Z (-1) else of_Z 1
  end.

(** The integer part of the magnitude [m * 2^e] for [e < 0]. *)
Definition int_part (m : positive) (e : Z) : Z := Z.shiftr (Zpos m) (- e).

(** Whether [m * 2^e] with [e < 0] has a non-zero fractional part. *)
Definition has_frac (m : positive) (e : Z) : bool :=
  negb (Z.shiftl (int_part m e) (- e) =? Zpos m).

(** The signed integer [n] as a number, with [s] the sign of a zero result. *)
Definition integral (s : bool) (n : Z) : number :=
  binary_normalize prec emax (cond_Zopp s n) 0 s.

(** [Math.trunc]: rounds toward zero, keeping the sign of a zero result. *)
Definition Math_trunc (x : number) : number :=
  match x with
  | S754_finite s m e =>
      if 0 <=? e then x else integral s (int_part m e)
  | _ => x
  end.

(** [Math.floor]: rounds toward minus infinity. *)
Definition Math_floor (x : number) : number :=
  match x with
  | S754_finite s m e =>
      if 0 <=? e then x
      else if s && has_frac m e then integral s (int_part m e + 1)
      else integral s (int_part m e)
  | _ => x
  end.

End Num.

Import Num.

(** ** [truncPercentage] (main.ts, lines 27-29) *)

Definition truncPercentage (n : number) : number :=
  mul (Math_sign n) (div (Math_trunc (mul (abs n) (of_Z 10))) (of_Z 10)).

(** ** Completions *)

(** A computation either returns normally or throws an [Error] whose
    [message] is kept. *)
Inductive completion (A : Type) : Type :=
  | Normal (a : A)
  | Throw (message : string).
Arguments Normal {A} a.
Arguments Throw {A} message.

Definition bindC {A B} (c : completion A) (k : A -> completion B) : completion B :=
  match c with
  | Normal a => k a
  | Throw e => Throw e
  end.

(** ** The coverage engine ([simplecov.js], imported by main.ts)

    [main.ts] imports [ResultSet], [Coverage], [getCoverageDiff] and
    [FileCoverageDiff] from [./simplecov.js], which is not among the sources.
    Every definition of this module is therefore modelled from the
    specification (sections 3 and 4), and says so. *)

Module SimpleCov.

(** Modelled from the spec: the [lines] of a file record (section 3), one
    entry per source line: a hit count, or [None] for the null marker of a
    line that is not instrumentable. *)
Abbreviation LineCoverage := (list (option N)).

(** Modelled from the spec: the [branches] of a file record (section 3),
    branch identifier to hit count. *)
Abbreviation BranchCoverage := (gmap string N).

(** Modelled from the spec: the per-file coverage record (section 3). *)
Record FileCoverage := {
  lines : LineCoverage;
  branches : BranchCoverage
}.

(** Modelled from the spec: the [coverage] mapping of a suite (section 3),
    file path to per-file record, in insertion order. *)
Definition CoverageMap := list (string * FileCoverage).

(** Modelled from the spec: the record of one top-level suite (section 3). *)
Record Suite := { coverage : CoverageMap }.

(** Modelled from the spec: the type [ResultSet] (section 3), suite
    identifier to suite, in insertion order. *)
Definition ResultSet := list (string * Suite).

(** Modelled from the spec: reading a path in a coverage mapping. *)
Fixpoint lookupFile (path : string) (m : CoverageMap) : option FileCoverage :=
  match m with
  | [] => None
  | (p, r) :: m' => if String.eqb p path then Some r else lookupFile path m'
  end.

(** Modelled from the spec: assignment to a path the mapping already has;
    the path keeps its position. *)
Fixpoint replaceFile (path : string) (r : FileCoverage) (m : CoverageMap) : CoverageMap :=
  match m with
  | [] => []
  | (p, r0) :: m' =>
      if String.eqb p path then (p, r) :: m' else (p, r0) :: replaceFile path r m'
  end.

(** Modelled from the spec: the file paths of a mapping, in iteration order. *)
Definition paths (m : CoverageMap) : list string := map fst m.

(** Modelled from the spec: the name of the error the engine raises on
    malformed input (section 7); the specification gives it no message. *)
Definition ParseError : string := "ParseError".

(** Modelled from the spec: the positional sum of two line entries
    (section 4.1).  Two hit counts add; the specification does not say what a
    null marker on one side only gives, and the marker is taken here to
    contribute no hits. *)
Definition mergeHit (a b : option N) : option N :=
  match a, b with
  | Some x, Some y => Some (x + y)%N
  | Some x, None => Some x
  | None, Some y => Some y
  | None, None => None
  end.

(** Modelled from the spec: the positional merge of two line arrays
    (section 3: the arrays have equal lengths, failing clearly otherwise). *)
Fixpoint mergeLines (l1 l2 : LineCoverage) : completion LineCoverage :=
  match l1, l2 with
  | [], [] => Normal []
  | a :: l1', b :: l2' =>
      bindC (mergeLines l1' l2') (fun l => Normal (mergeHit a b :: l))
  | _, _ => Throw ParseError
  end.

(** Modelled from the spec: branch counts are summed over the union of the
    keys, a key missing on one side counting as 0 (section 4.1). *)
Definition mergeBranches (b1 b2 : BranchCoverage) : BranchCoverage :=
  union_with (fun x y => Some (x + y)%N) b1 b2.

(** Modelled from the spec: the merge of two records of one file
    (section 4.1). *)
Definition mergeFile (r1 r2 : FileCoverage) : completion FileCoverage :=
  bindC (mergeLines (lines r1) (lines r2)) (fun l =>
  Normal {| lines := l; branches := mergeBranches (branches r1) (branches r2) |}).

(** Modelled from the spec: one step of [build] (section 4.1): a path not
    yet seen is stored as it is, a path already seen is merged in place. *)
Definition addFile (m : CoverageMap) (entry : string * FileCoverage)
  : completion CoverageMap :=
  let '(path, r) := entry in
  match lookupFile path m with
  | None => Normal (m ++ [(path, r)])
  | Some r0 => bindC (mergeFile r0 r) (fun r' => Normal (replaceFile path r' m))
  end.

(** Modelled from the spec: the loop of [build] over the files of one suite
    (section 4.1). *)
Fixpoint addFiles (m : CoverageMap) (entries : CoverageMap) : completion CoverageMap :=
  match entries with
  | [] => Normal m
  | entry :: rest => bindC (addFile m entry) (fun m' => addFiles m' rest)
  end.

(** Modelled from the spec: the loop of [build] over the suites
    (section 4.1). *)
Fixpoint addSuites (m : CoverageMap) (suites : ResultSet) : completion CoverageMap :=
  match suites with
  | [] => Normal m
  | (_, s) :: rest => bindC (addFiles m (coverage s)) (fun m' => addSuites m' rest)
  end.

(** Modelled from the spec: the class [Coverage] (section 3), the merged
    document of one snapshot, read-only once built. *)
Record Coverage := { files : CoverageMap }.

(** Modelled from the spec: the constructor [new Coverage(resultset)]
    (section 4.1, [build]): all suites, then all files of each, in order; a
    failure leaves no partial result. *)
Definition build (raw : ResultSet) : completion Coverage :=
  bindC (addSuites [] raw) (fun m => Normal {| files := m |}).

(** *** Coverage calculator *)

(** Modelled from the spec: [covered / total * 100] in the host arithmetic,
    at full precision (section 4.2). *)
Definition percent (covered total : nat) : number :=
  mul (div (of_Z (Z.of_nat covered)) (of_Z (Z.of_nat total))) (of_Z 100).

(** Modelled from the spec: one pass over the line entries, counting the
    instrumentable ones and those among them that were hit (section 4.2). *)
Fixpoint countLines (ls : LineCoverage) (instrumentable covered : nat) : nat * nat :=
  match ls with
  | [] => (instrumentable, covered)
  | None :: rest => countLines rest instrumentable covered
  | Some hit :: rest =>
      countLines rest (S instrumentable) (if (0 <? hit)%N then S covered else covered)
  end.

(** Modelled from the spec: [linesPercentage] (section 4.2). *)
Definition linesPercentage (r : FileCoverage) : option number :=
  let '(instrumentable, covered) := countLines (lines r) 0 0 in
  if (instrumentable =? 0)%nat then None else Some (percent covered instrumentable).

(** Modelled from the spec: [branchesPercentage] (section 4.2), the same
    over the values of the branch mapping. *)
Definition branchesPercentage (r : FileCoverage) : option number :=
  let total := size (branches r) in
  let covered := size (filter (fun kv => (0 < kv.2)%N) (branches r)) in
  if (total =? 0)%nat then None else Some (percent covered total).

(** Modelled from the spec: the result of [percentageFor] (section 4.2). *)
Record Percentages := {
  linesPct : option number;
  branchesPct : option number
}.

(** Modelled from the spec: [percentageFor] (section 4.2); both numbers are
    null for a path the document does not have. *)
Definition percentageFor (c : Coverage) (path : string) : Percentages :=
  match lookupFile path (files c) with
  | None => {| linesPct := None; branchesPct := None |}
  | Some r => {| linesPct := linesPercentage r; branchesPct := branchesPercentage r |}
  end.

(** Modelled from the spec: whether a document has a record for a path
    (section 4.3, step 4). *)
Definition has (c : Coverage) (path : string) : bool :=
  match lookupFile path (files c) with Some _ => true | None => false end.

(** *** Diff engine *)

(** Modelled from the spec: a pair [{from, to}] of a diff record
    (section 3). *)
Record DiffItem := { from : option number; to : option number }.

(** Modelled from the spec: the type [FileCoverageDiff] (section 3); the
    fields [lines] and [branches] are named [lines_diff] and [branches_diff]
    here, apart from those of the file record. *)
Record FileCoverageDiff := {
  filename : string;
  lines_diff : DiffItem;
  branches_diff : DiffItem
}.

(** Modelled from the spec: adding a path to the insertion-ordered union
    (section 4.3, step 1); a path already present leaves it as it is. *)
Definition addPath (seen : list string) (p : string) : list string :=
  if bool_decide (p ∈ seen) then seen else seen ++ [p].

(** Modelled from the spec: steps 1 and 2 of [diff] (section 4.3): the
    paths of [head] in iteration order, then those of [base] not yet
    included. *)
Definition unionPaths (base head : Coverage) : list string :=
  fold_left addPath (paths (files head) ++ paths (files base)) [].

(** Modelled from the spec: steps 3 and 5 of [diff] (section 4.3): the
    record of one path, from the look-ups on both sides. *)
Definition makeDiff (base head : Coverage) (path : string) : FileCoverageDiff :=
  let b := percentageFor base path in
  let h := percentageFor head path in
  {| filename := path;
     lines_diff := {| from := linesPct b; to := linesPct h |};
     branches_diff := {| from := branchesPct b; to := branchesPct h |} |}.

(** Modelled from the spec: steps 3 to 5 of [diff] (section 4.3): a path is
    skipped only when neither document has a record for it. *)
Fixpoint diffPaths (base head : Coverage) (ps : list string) : list FileCoverageDiff :=
  match ps with
  | [] => []
  | p :: rest =>
      if has base p || has head p
      then makeDiff base head p :: diffPaths base head rest
      else diffPaths base head rest
  end.

(** Modelled from the spec: [getCoverageDiff(base, head)] (section 4.3). *)
Definition getCoverageDiff (base head : Coverage) : list FileCoverageDiff :=
  diffPaths base head (unionPaths base head).

End SimpleCov.

Import SimpleCov.

(** ** Numbers as text *)

Module NumberText.

Definition add : number -> number -> number := SFadd prec emax.

(** [x % y]: the remainder of the truncating division, computed exactly;
    it carries the sign of the dividend. *)
Definition rem (x y : number) : number :=
  match x, y with
  | S754_nan, _ | _, S754_nan => S754_nan
  | S754_infinity _, _ => S754_nan
  | _, S754_zero _ => S754_nan
  | S754_zero _, _ => x
  | S754_finite _ _ _, S754_infinity _ => x
  | S754_finite sx mx ex, S754_finite _ my ey =>
      let ez := Z.min ex ey in
      let X := Z.shiftl (Zpos mx) (ex - ez) in
      let Y := Z.shiftl (Zpos my) (ey - ez) in
      binary_normalize prec emax (cond_Zopp sx (X mod Y)) ez sx
  end.

(** A positive rational [num / den], [den > 0]. *)
Definition ratio := (Z * Z)%type.

Definition ratio_compare (a b : ratio) : comparison :=
  (a.1 * b.2 ?= b.1 * a.2).

Definition ratio_leb (a b : ratio) : bool :=
  match ratio_compare a b with Gt => false | _ => true end.

Definition ratio_ltb (a b : ratio) : bool :=
  match ratio_compare a b with Lt => true | _ => false end.

(** [m * 2^e] as a ratio. *)
Definition scaled2 (m e : Z) : ratio :=
  if 0 <=? e then (m * 2 ^ e, 1) else (m, 2 ^ (- e)).

(** [s * 10^p] as a ratio. *)
Definition scaled10 (s p : Z) : ratio :=
  if 0 <=? p then (s * 10 ^ p, 1) else (s, 10 ^ (- p)).

(** The distance between two ratios, as a ratio. *)
Definition ratio_dist (a b : ratio) : ratio :=
  (Z.abs (a.1 * b.2 - b.1 * a.2), a.2 * b.2).

(** The largest [j] with [10^j <= x], searched from the estimate [j]. *)
Fixpoint log10_down (fuel : nat) (x : ratio) (j : Z) : Z :=
  match fuel with
  | O => j
  | S fuel' => if ratio_leb (scaled10 1 j) x then j else log10_down fuel' x (j - 1)
  end.

Fixpoint log10_up (fuel : nat) (x : ratio) (j : Z) : Z :=
  match fuel with
  | O => j
  | S fuel' => if ratio_leb (scaled10 1 (j + 1)) x then log10_up fuel' x (j + 1) else j
  end.

Definition floor_log10 (x : ratio) : Z :=
  let estimate := (Z.log2 x.1 - Z.log2 x.2) * 30103 / 100000 in
  log10_up 700 x (log10_down 700 x estimate).

(** The interval of the reals that round to the finite number [m * 2^e]:
    half way to each neighbour; the ends belong to it when [m] is even. *)
Definition round_interval (m : positive) (e : Z) : ratio * ratio :=
  let lower :=
    if (Zpos m =? 2 ^ (prec - 1)) && (emin prec emax <? e)
    then scaled2 (4 * Zpos m - 1) (e - 2)
    else scaled2 (2 * Zpos m - 1) (e - 1) in
  (lower, scaled2 (2 * Zpos m + 1) (e - 1)).

Definition rounds_to (m : positive) (e : Z) (c : ratio) : bool :=
  let '(lo, hi) := round_interval m e in
  if Z.even (Zpos m) then ratio_leb lo c && ratio_leb c hi
  else ratio_ltb lo c && ratio_ltb c hi.

(** The [k]-digit decimal [s * 10^p] nearest to [m * 2^e] that reads back
    as it, if there is one. *)
Definition candidate (m : positive) (e : Z) (j : Z) (k : Z) : option (Z * Z) :=
  let x := scaled2 (Zpos m) e in
  let p := j - k + 1 in
  let s_lo := if 0 <=? p then x.1 / (x.2 * 10 ^ p) else (x.1 * 10 ^ (- p)) / x.2 in
  let s_hi := s_lo + 1 in
  let ok_lo := rounds_to m e (scaled10 s_lo p) in
  let ok_hi := rounds_to m e (scaled10 s_hi p) in
  match ok_lo, ok_hi with
  | false, false => None
  | true, false => Some (s_lo, p)
  | false, true => Some (s_hi, p)
  | true, true =>
      match ratio_compare (ratio_dist x (scaled10 s_lo p)) (ratio_dist x (scaled10 s_hi p)) with
      | Lt => Some (s_lo, p)
      | Gt => Some (s_hi, p)
      | Eq => if Z.even s_lo then Some (s_lo, p) else Some (s_hi, p)
      end
  end.

Fixpoint shortest (fuel : nat) (m : positive) (e : Z) (j : Z) (k : Z) : Z * Z :=
  match fuel with
  | O => (0, 0)
  | S fuel' =>
      match candidate m e j k with
      | Some sp => sp
      | None => shortest fuel' m e j (k + 1)
      end
  end.

Fixpoint strip_zeros (fuel : nat) (s p : Z) : Z * Z :=
  match fuel with
  | O => (s, p)
  | S fuel' => if (s mod 10 =? 0) && (0 <? s) then strip_zeros fuel' (s / 10) (p + 1) else (s, p)
  end.

Definition digits (z : Z) : string := pretty (Z.to_N z).

Fixpoint zeros (n : nat) : string :=
  match n with O => "" | S n' => String "0" (zeros n') end.

Fixpoint take_str (n : nat) (s : string) : string :=
  match n, s with
  | S n', String c s' => String c (take_str n' s')
  | _, _ => ""
  end.

Fixpoint drop_str (n : nat) (s : string) : string :=
  match n, s with
  | S n', String _ s' => drop_str n' s'
  | _, _ => s
  end.

(** The text of a positive finite number from its shortest digits [D] and
    its decimal exponent [n] ([0.D * 10^n]). *)
Definition layout (D : string) (n : Z) : string :=
  let k := Z.of_nat (String.length D) in
  if (k <=? n) && (n <=? 21) then D +:+ zeros (Z.to_nat (n - k))
  else if (0 <? n) && (n <=? 21) then
    take_str (Z.to_nat n) D +:+ "." +:+ drop_str (Z.to_nat n) D
  else if (-6 <? n) && (n <=? 0) then "0." +:+ zeros (Z.to_nat (- n)) +:+ D
  else
    let e := n - 1 in
    let expo := (if 0 <=? e then "e+" else "e-") +:+ digits (Z.abs e) in
    if k =? 1 then D +:+ expo
    else take_str 1 D +:+ "." +:+ drop_str 1 D +:+ expo.

(** [Number::toString]: the text a number has in a template literal, the
    shortest decimal that reads back as the same number. *)
Definition toString (x : number) : string :=
  match x with
  | S754_nan => "NaN"
  | S754_zero _ => "0"
  | S754_infinity s => if s then "-Infinity" else "Infinity"
  | S754_finite s m e =>
      let j := floor_log10 (scaled2 (Zpos m) e) in
      let '(s0, p0) := shortest 17 m e j 1 in
      let '(s1, p1) := strip_zeros 400 s0 p0 in
      let D := digits s1 in
      (if s then "-" else "") +:+ layout D (Z.of_nat (String.length D) + p1)
  end.

End NumberText.

Import NumberText.

(** ** Strings *)

Module JsString.

(** [s.startsWith(t)]. *)
Definition startsWith (s t : string) : bool := String.prefix t s.

(** [s.slice(n)] for a start index [n] that is not negative. *)
Fixpoint slice (s : string) (n : nat) : string :=
  match n, s with
  | S n', String _ s' => slice s' n'
  | _, _ => s
  end.

End JsString.

Import JsString.

(** ** The formatter (main.ts, lines 31-80) *)

Definition badgeUrl (from to : number) : string :=
  let top :=
    "https://raw.githubusercontent.com/kzkn/simplecov-resultset-diff-action/main/assets" in
  let diff := abs (truncPercentage (sub to from)) in
  if strict_eq diff (of_Z 0) then
    top +:+ "/0.svg"
  else
    let dir := if ltb (Math_sign (sub to from)) (of_Z 0) then "down" else "up" in
    let n := Math_trunc diff in
    let m := rem (mul diff (of_Z 10)) (of_Z 10) in
    top +:+ "/" +:+ dir +:+ "/" +:+ toString n +:+ "/" +:+ toString n +:+ "."
        +:+ toString m +:+ ".svg".

(** The two labels of a cell, as [formatDiffItem] computes them. *)
Definition created (item : DiffItem) : string :=
  match from item, to item with
  | None, Some _ => "NEW"
  | _, _ => ""
  end.

Definition deleted (item : DiffItem) : string :=
  match from item, to item with
  | Some _, None => "DELETE"
  | _, _ => ""
  end.

Definition formatDiffItem (item : DiffItem) : string :=
  let p :=
    match to item with
    | Some t => " " +:+ toString (truncPercentage t) +:+ "%"
    | None => ""
    end in
  let badge :=
    match from item, to item with
    | Some f, Some t =>
        " ![" +:+ toString (truncPercentage (sub t f)) +:+ "%](" +:+ badgeUrl f t +:+ ")"
    | _, _ => ""
    end in
  created item +:+ deleted item +:+ p +:+ badge.

Section Formatter.

(** [process.env.GITHUB_WORKSPACE], read once when the module is loaded. *)
Variable WORKSPACE : string.

Definition trimWorkspacePath (filename : string) : string :=
  let workspace := WORKSPACE +:+ "/" in
  if startsWith filename workspace then
    slice filename (String.length workspace)
  else
    filename.

Definition formatDiff (diff : FileCoverageDiff) : list string :=
  [ trimWorkspacePath (filename diff);
    formatDiffItem (lines_diff diff);
    formatDiffItem (branches_diff diff) ].

End Formatter.

(** ** The driver (main.ts, lines 16-25 and 82-165) *)

Module Action.

(** What a run does to the outside world, in order. *)
Inductive event :=
  | Info (message : string)
  | Warning (message : string)
  | SetFailed (message : string)
  | CreateComment (owner repo : string) (issue_number : Z) (body : string).

(** [github.context], already resolved by the host. *)
Record Context := {
  eventName : string;
  payload_action : option string;
  payload_after : string;
  payload_json : string;          (* JSON.stringify(payload) *)
  sha : string;
  issue_number : option Z;        (* undefined when the event has no number *)
  repo_owner : string;
  repo_repo : string
}.

(** The collaborators of a run: action inputs, file system, CI context and
    the remote API. *)
Record Host := {
  getInput : string -> string;
  cwd : string;
  resolve : string -> string -> string;
  existsSync : string -> bool;
  readResultset : string -> completion ResultSet;  (* readFileSync, then JSON.parse *)
  context : Context;
  getOctokit : string -> completion unit;
  createComment : string -> string -> Z -> string -> completion unit
}.

(** A step of the run: it extends the log and returns or throws. *)
Definition Run (A : Type) : Type := list event -> completion A * list event.

Definition ret {A} (a : A) : Run A := fun log => (Normal a, log).

Definition bind {A B} (c : Run A) (k : A -> Run B) : Run B :=
  fun log =>
    match c log with
    | (Normal a, log') => k a log'
    | (Throw e, log') => (Throw e, log')
    end.

Definition emit (e : event) : Run unit := fun log => (Normal tt, log ++ [e]).

Definition lift {A} (c : completion A) : Run A := fun log => (c, log).

Definition throw {A} (message : string) : Run A := lift (Throw message).

(** [!pullRequestId] on a number that may be undefined. *)
Definition falsy (n : option Z) : bool :=
  match n with
  | None => true
  | Some z => z =? 0
  end.

Definition newline : string := String "010"%char "".

End Action.

Import Action.

Notation "x <- c ;; k" := (Action.bind c (fun x => k))
  (at level 100, c at next level, right associativity).
Notation "c ;;; k" := (Action.bind c (fun _ => k))
  (at level 100, right associativity).

Section Driver.

Variable WORKSPACE : string.

(** [markdownTable] of the markdown-table package. *)
Variable markdownTable : list (list string) -> string.

Variable host : Host.

Definition doesPathExists (filepath : string) : Run unit :=
  if existsSync host filepath then ret tt
  else throw (filepath +:+ " does not exist!").

Definition parseResultset (resultsetPath : string) : Run ResultSet :=
  lift (readResultset host (resolve host WORKSPACE resultsetPath)).

(** The report body (main.ts, lines 109-117). *)
Definition content (diff : list FileCoverageDiff) : string :=
  if (length diff =? 0)%nat then
    "No differences"
  else
    markdownTable (["Filename"; "Lines"; "Branches"] :: map (formatDiff WORKSPACE) diff).

(** The commit the report is attributed to (main.ts, lines 119-136). *)
Definition commitSha : Run string :=
  let ctx := context host in
  if String.eqb (eventName ctx) "push" then
    emit (Info "Pull sha from pushEvent") ;;;
    ret (payload_after ctx)
  else if String.eqb (eventName ctx) "pull_request"
          && bool_decide (payload_action ctx = Some "synchronize") then
    emit (Info "Pull sha from PullRequestSynchronizeEvent") ;;;
    ret (payload_after ctx)
  else
    emit (Info "Unsupported event") ;;;
    emit (Info ("eventName: " +:+ eventName ctx)) ;;;
    emit (Info (payload_json ctx)) ;;;
    ret (sha ctx).

Definition message (content commitSha : string) : string :=
  "## Coverage difference" +:+ newline +:+ content +:+ newline +:+ newline
    +:+ "_Commit " +:+ commitSha +:+ "_" +:+ newline.

(** The body of the [try] block. *)
Definition run_body : Run unit :=
  let resultsetPaths_base := getInput host "base-resultset-path" in
  let resultsetPaths_head := getInput host "head-resultset-path" in
  let paths_base := resolve host (cwd host) resultsetPaths_base in
  let paths_head := resolve host (cwd host) resultsetPaths_head in
  doesPathExists paths_base ;;;
  doesPathExists paths_head ;;;
  resultsets_base <- parseResultset paths_base ;;
  resultsets_head <- parseResultset paths_head ;;
  coverages_base <- lift (build resultsets_base) ;;
  coverages_head <- lift (build resultsets_head) ;;
  let diff := getCoverageDiff coverages_base coverages_head in
  sha <- commitSha ;;
  let msg := message (content diff) sha in
  lift (getOctokit host (getInput host "token")) ;;;
  let pullRequestId := issue_number (context host) in
  if falsy pullRequestId then
    emit (Warning "Cannot find the PR id.") ;;;
    emit (Info msg)
  else
    let owner := repo_owner (context host) in
    let repo := repo_repo (context host) in
    let issue_number := default 0 pullRequestId in
    emit (CreateComment owner repo issue_number msg) ;;;
    lift (createComment host owner repo issue_number msg).

(** [run]: the body, with any error turned into the failure status. *)
Definition run : list event :=
  match run_body [] with
  | (Normal _, log) => log
  | (Throw error_message, log) => log ++ [SetFailed error_message]
  end.

End Driver.

(** A table renderer in the manner of the markdown-table package with its
    default options: cells padded to the width of their column, a row of
    dashes under the header, lines joined by a line feed. *)
Module Table.

Fixpoint repeat_char (c : ascii) (n : nat) : string :=
  match n with O => "" | S n' => String c (repeat_char c n') end.

Definition cell (row : list string) (i : nat) : string := default "" (row !! i).

Definition columns (table : list (list string)) : nat :=
  foldr (fun row n => Nat.max (length row) n) 0%nat table.

Definition width (table : list (list string)) (i : nat) : nat :=
  foldr (fun row n => Nat.max (String.length (cell row i)) n) 1%nat table.

Definition line (widths : list nat) (row : list string) : string :=
  "|" +:+ foldr (fun iw rest =>
                  " " +:+ cell row iw.1
                      +:+ repeat_char " " (iw.2 - String.length (cell row iw.1))
                      +:+ " |" +:+ rest)
                "" (imap (fun i w => (i, w)) widths).

Fixpoint join (sep : string) (ls : list string) : string :=
  match ls with
  | [] => ""
  | [l] => l
  | l :: rest => l +:+ sep +:+ join sep rest
  end.

Definition render (table : list (list string)) : string :=
  let widths := map (width table) (seq 0 (columns table)) in
  let rule := map (fun w => repeat_char "-" w) widths in
  match table with
  | [] => line widths rule
  | header :: rows => join newline (map (line widths) (header :: rule :: rows))
  end.

End Table.

(** ** The counts the specification speaks of *)

(** An entry that is not the null marker. *)
Definition isInstrumentable (entry : option N) : bool :=
  match entry with Some _ => true | None => false end.

(** An entry with a hit count above zero. *)
Definition isCovered (entry : option N) : bool :=
  match entry with Some hit => (0 <? hit)%N | None => false end.

Definition instrumentableCount (ls : LineCoverage) : nat :=
  length (List.filter isInstrumentable ls).

Definition coveredCount (ls : LineCoverage) : nat :=
  length (List.filter isCovered ls).

(** What [addFile] stores under a path, given what was there before. *)
Definition combineFile (old : option FileCoverage) (r : FileCoverage)
  : completion FileCoverage :=
  match old with
  | None => Normal r
  | Some r0 => mergeFile r0 r
  end.

(** ** The end-to-end scenario of the specification (section 8) *)

Module Scenario.

Definition file (ls : LineCoverage) : FileCoverage :=
  {| lines := ls; branches := ∅ |}.

Definition base_resultset : ResultSet :=
  [("RSpec", {| coverage := [("a.rb", file [Some 1; Some 1; Some 0]%N)] |})].

Definition head_resultset : ResultSet :=
  [("RSpec", {| coverage := [("a.rb", file [Some 1; Some 1; Some 1]%N)] |})].

Definition base : Coverage :=
  {| files := [("a.rb", file [Some 1; Some 1; Some 0]%N)] |}.

Definition head : Coverage :=
  {| files := [("a.rb", file [Some 1; Some 1; Some 1]%N)] |}.

(** [2 / 3 * 100], as the calculator computes it. *)
Definition two_thirds : number := mul (div (of_Z 2) (of_Z 3)) (of_Z 100).

(** The record with [from] at the full precision of [2 / 3 * 100]. *)
Definition emitted : FileCoverageDiff :=
  {| filename := "a.rb";
     lines_diff := {| from := Some two_thirds; to := Some (of_Z 100) |};
     branches_diff := {| from := None; to := None |} |}.

End Scenario.

(** ** Observations on a log *)

Definition isInfo (e : event) : bool :=
  match e with Info _ => true | _ => false end.

Definition isSetFailed (e : event) : bool :=
  match e with SetFailed _ => true | _ => false end.

Definition isCreateComment (e : event) : bool :=
  match e with CreateComment _ _ _ _ => true | _ => false end.

(** A step is quiet when it adds no comment-creation call to a log that has
    none. *)
Definition quiet {A} (c : Run A) : Prop :=
  forall log, existsb isCreateComment log = false ->
              existsb isCreateComment (c log).2 = false.

(** A host for the end-to-end scenario: both result sets are on disk, the
    event is a push, and the context carries no pull-request number. *)
Module ScenarioHost.

Definition context : Context :=
  {| eventName := "push";
     payload_action := None;
     payload_after := "4f2c1e9";
     payload_json := "{}";
     sha := "0000000";
     issue_number := None;
     repo_owner := "empiricalsec";
     repo_repo := "example" |}.

Definition host : Host :=
  {| getInput := fun name =>
       if String.eqb name "base-resultset-path" then "base.json"
       else if String.eqb name "head-resultset-path" then "head.json"
       else "token-value";
     cwd := "/w";
     resolve := fun dir name =>
       if startsWith name "/" then name else dir +:+ "/" +:+ name;
     existsSync := fun path =>
       String.eqb path "/w/base.json" || String.eqb path "/w/head.json";
     readResultset := fun path =>
       if String.eqb path "/w/base.json" then Normal Scenario.base_resultset
       else if String.eqb path "/w/head.json" then Normal Scenario.head_resultset
       else Throw ("ENOENT: no such file or directory, open '" +:+ path +:+ "'");
     Action.context := context;
     getOctokit := fun _ => Normal tt;
     createComment := fun _ _ _ _ => Normal tt |}.

End ScenarioHost.

(** ** Further vocabulary for the formatter *)

(** Whether two numbers are the same value, bit for bit (unlike [===], the
    zeros differ and NaN is itself). *)
Definition same (a b : number) : bool :=
  match a, b with
  | S754_zero s, S754_zero s' => Bool.eqb s s'
  | S754_infinity s, S754_infinity s' => Bool.eqb s s'
  | S754_nan, S754_nan => true
  | S754_finite s m e, S754_finite s' m' e' =>
      Bool.eqb s s' && Pos.eqb m m' && Z.eqb e e'
  | _, _ => false
  end.

(** A number that a percentage or a difference of percentages can be: a zero
    or a finite value. *)
Definition isFinite (x : number) : bool :=
  match x with
  | S754_zero _ | S754_finite _ _ _ => true
  | _ => false
  end.

(** The integers [0, 1, ..., n - 1]. *)
Definition upto (n : Z) : list Z := map Z.of_nat (seq 0 (Z.to_nat n)).

(** The root of the badge images, as in [badgeUrl]. *)
Definition badgeTop : string :=
  "https://raw.githubusercontent.com/kzkn/simplecov-resultset-diff-action/main/assets".

(** The badge of [badgeUrl] as a function of the two numbers it derives from
    its arguments: the sign of the difference and the difference's magnitude
    in truncated tenths. *)
Definition badgeOfParts (sign tenths : number) : string :=
  let diff := abs (mul sign (div tenths (of_Z 10))) in
  if strict_eq diff (of_Z 0) then
    badgeTop +:+ "/0.svg"
  else
    let dir := if ltb sign (of_Z 0) then "down" else "up" in
    let n := Math_trunc diff in
    let m := rem (mul diff (of_Z 10)) (of_Z 10) in
    badgeTop +:+ "/" +:+ dir +:+ "/" +:+ toString n +:+ "/" +:+ toString n +:+ "."
        +:+ toString m +:+ ".svg".

(** The badge image for a change of [tenths] tenths of a point, downward or
    upward: the neutral image for no tenth at all, and otherwise
    [<top>/<dir>/<units>/<units>.<tenth>.svg]. *)
Definition badgeFile (down : bool) (tenths : Z) : string :=
  if tenths =? 0 then
    badgeTop +:+ "/0.svg"
  else
    badgeTop +:+ "/" +:+ (if down then "down" else "up") +:+ "/"
      +:+ pretty (Z.to_N (tenths / 10)) +:+ "/"
      +:+ pretty (Z.to_N (tenths / 10)) +:+ "." +:+ pretty (Z.to_N (tenths mod 10))
      +:+ ".svg".

(** The decimal text of [tenths / 10]: the units, then a point and one digit
    unless that digit is 0. *)
Definition oneDecimal (tenths : Z) : string :=
  pretty (Z.to_N (tenths / 10))
    +:+ (if tenths mod 10 =? 0 then "" else "." +:+ pretty (Z.to_N (tenths mod 10))).

(** ** Further vocabulary for the driver *)

(** The absolute path of the result set named by an action input, as [run]
    computes it ([paths.base], [paths.head]). *)
Definition inputPath (host : Host) (input : string) : string :=
  resolve host (cwd host) (getInput host input).

(** The message a run publishes or logs for two built documents. *)
Definition report (WORKSPACE : string) (markdownTable : list (list string) -> string)
    (base head : Coverage) (commitSha : string) : string :=
  message (content WORKSPACE markdownTable (getCoverageDiff base head)) commitSha.

(** Variations of the scenario host. *)
Module Hosts.

Definition make (ctx : Context) (existsSync : string -> bool)
    (readResultset : string -> completion ResultSet)
    (getOctokit : string -> completion unit)
    (createComment : string -> string -> Z -> string -> completion unit) : Host :=
  {| getInput := getInput ScenarioHost.host;
     cwd := cwd ScenarioHost.host;
     resolve := resolve ScenarioHost.host;
     Action.existsSync := existsSync;
     Action.readResultset := readResultset;
     context := ctx;
     Action.getOctokit := getOctokit;
     Action.createComment := createComment |}.

(** A pull request that was just opened: the event is not a synchronize. *)
Definition opened_context : Context :=
  {| eventName := "pull_request";
     payload_action := Some "opened";
     payload_after := "";
     payload_json := "{}";
     sha := "9d1c0aa";
     issue_number := Some 42;
     repo_owner := "empiricalsec";
     repo_repo := "example" |}.

(** The head result set is missing from the disk. *)
Definition missing_head : Host :=
  make ScenarioHost.context (fun path => String.eqb path "/w/base.json")
       (readResultset ScenarioHost.host) (getOctokit ScenarioHost.host)
       (createComment ScenarioHost.host).

(** The head result set is not valid JSON. *)
Definition corrupt_head : Host :=
  make ScenarioHost.context (existsSync ScenarioHost.host)
       (fun path => if String.eqb path "/w/base.json" then Normal Scenario.base_resultset
                    else Throw "Unexpected end of JSON input")
       (getOctokit ScenarioHost.host) (createComment ScenarioHost.host).

(** No token: the API client cannot be created. *)
Definition no_token : Host :=
  make ScenarioHost.context (existsSync ScenarioHost.host)
       (readResultset ScenarioHost.host)
       (fun _ => Throw "Parameter token or opts.auth is required")
       (createComment ScenarioHost.host).

(** A pull request whose comment is accepted by the API. *)
Definition pull_request : Host :=
  make opened_context (existsSync ScenarioHost.host)
       (readResultset ScenarioHost.host) (getOctokit ScenarioHost.host)
       (createComment ScenarioHost.host).

(** A pull request whose comment the API refuses. *)
Definition forbidden : Host :=
  make opened_context (existsSync ScenarioHost.host)
       (readResultset ScenarioHost.host) (getOctokit ScenarioHost.host)
       (fun _ _ _ _ => Throw "Resource not accessible by integration").

End Hosts.

(** ** The merge, in the words of the specification *)

(** Modelled from the spec: the records a result set holds, suite after
    suite and file after file, in the order in which [build] meets them. *)
Definition entriesOf (raw : ResultSet) : CoverageMap :=
  flat_map (fun suite => coverage suite.2) raw.

(** Modelled from the spec: the records reported for one path, in that
    order. *)
Definition reports (path : string) (entries : CoverageMap) : list FileCoverage :=
  map snd (List.filter (fun entry => String.eqb entry.1 path) entries).

(** Modelled from the spec: the sum of the hit counts among some entries, in
    the words of section 4.1: a missing count is treated as 0, and there is
    no count when none of the entries has one. *)
Definition sumHits (entries : list (option N)) : option N :=
  if existsb isInstrumentable entries
  then Some (foldr N.add 0%N (map (default 0%N) entries))
  else None.

(** Modelled from the spec: the entries that some records hold for the line
    at one position. *)
Definition lineColumn (i : nat) (rows : list FileCoverage) : list (option N) :=
  map (fun r => default None (lines r !! i)) rows.

(** Modelled from the spec: the counts that some records hold for one
    branch. *)
Definition branchColumn (k : string) (rows : list FileCoverage) : list (option N) :=
  map (fun r => branches r !! k) rows.

(** ** The diff as a run of its loop *)

Module DiffLoop.






End DiffLoop.

(** * Properties *)

Example truncPercentage_66_666 : truncPercentage (dec 66666 3) = dec 666 1.
Proof. vm_compute. reflexivity. Qed.

Example truncPercentage_neg_0_05 : truncPercentage (SFopp (dec 5 2)) = S754_zero true.
Proof. vm_compute. reflexivity. Qed.

Example toString_examples :
  toString (dec 1 1) = "0.1"
  /\ toString (add (dec 1 1) (dec 2 1)) = "0.30000000000000004"
  /\ toString (of_Z 100) = "100"
  /\ toString (of_Z (10 ^ 21)) = "1e+21"
  /\ toString (SFopp (dec 1 7)) = "-1e-7"
  /\ toString (rem (of_Z 5) (dec 1 1)) = "0.09999999999999973".
Proof. repeat split; vm_compute; reflexivity. Qed.

Example formatDiff_scenario :
  formatDiff "/github/workspace"
    {| filename := "/github/workspace/app/models/user.rb";
       lines_diff := {| from := Some Scenario.two_thirds; to := Some (of_Z 100) |};
       branches_diff := {| from := Some (of_Z 50); to := None |} |}
  = [ "app/models/user.rb";
      " 100% ![33.3%](https://raw.githubusercontent.com/kzkn/simplecov-resultset-diff-action/main/assets/up/33/33.3.svg)";
      "DELETE" ].
Proof. vm_compute. reflexivity. Qed.

Example run_scenario :
  run "/w" Table.render ScenarioHost.host
  = [ Info "Pull sha from pushEvent";
      Warning "Cannot find the PR id.";
      Info (message
              (Table.render
                 [ ["Filename"; "Lines"; "Branches"];
                   ["a.rb";
                    " 100% ![33.3%](https://raw.githubusercontent.com/kzkn/simplecov-resultset-diff-action/main/assets/up/33/33.3.svg)";
                    ""] ])
              "4f2c1e9") ].
Proof. vm_compute. reflexivity. Qed.

Example run_missing_file :
  run "/w" Table.render
    {| getInput := getInput ScenarioHost.host;
       cwd := "/w";
       resolve := resolve ScenarioHost.host;
       existsSync := fun _ => false;
       readResultset := readResultset ScenarioHost.host;
       context := ScenarioHost.context;
       getOctokit := getOctokit ScenarioHost.host;
       createComment := createComment ScenarioHost.host |}
  = [ SetFailed "/w/base.json does not exist!" ].
Proof. vm_compute. reflexivity. Qed.

(** *** Sign lemmas for the arithmetic *)

Lemma signbit_binary_round_aux s m e l :
  signbit (binary_round_aux prec emax s m e l) = s \/
  binary_round_aux prec emax s m e l = S754_nan.
Proof.
  unfold binary_round_aux.
  destruct (shr_fexp prec emax m e l) as [mrs' e'].
  destruct (shr_fexp prec emax _ e' loc_Exact) as [mrs'' e''].
  destruct (shr_m mrs'') as [|q|q]; [left; reflexivity| |right; reflexivity].
  destruct (e'' <=? emax - prec); left; reflexivity.
Qed.

Lemma signbit_mul_abs (x y : number) :
  signbit y = false -> signbit (mul (abs x) y) = false.
Proof.
  intros Hy. unfold mul, abs.
  destruct x as [sx|sx| |sx mx ex], y as [sy|sy| |sy my ey];
    simpl in Hy; subst; try reflexivity.
  simpl SFabs. unfold SFmul. simpl xorb.
  destruct (signbit_binary_round_aux false (Zpos (mx * my)) (ex + ey) loc_Exact)
    as [H|H]; [exact H | rewrite H; reflexivity].
Qed.

(** On a number whose sign bit is clear, rounding down and rounding toward
    zero are the same operation. *)
Lemma Math_floor_trunc_nonneg (y : number) :
  signbit y = false -> Math_floor y = Math_trunc y.
Proof.
  destruct y as [s|s| |s m e]; try reflexivity.
  simpl. intros ->. reflexivity.
Qed.

(** C4. For every number [x], [truncPercentage x] is
    [sign(x) * (floor(|x| * 10) / 10)], all operations being those of the
    host arithmetic; [truncPercentage(66.666)] is [66.6], and
    [truncPercentage(-0.05)] is the (negative) zero, which [===] identifies
    with [0] and which prints as [0]. *)
Theorem truncPercentage_law :
  (forall x : number,
      truncPercentage x
      = mul (Math_sign x) (div (Math_floor (mul (abs x) (of_Z 10))) (of_Z 10)))
  /\ truncPercentage (dec 66666 3) = dec 666 1
  /\ strict_eq (truncPercentage (SFopp (dec 5 2))) (of_Z 0) = true
  /\ toString (truncPercentage (SFopp (dec 5 2))) = "0".
Proof.
  split; [|split; [|split]].
  - intros x. unfold truncPercentage.
    rewrite Math_floor_trunc_nonneg; [reflexivity|].
    apply signbit_mul_abs. reflexivity.
  - vm_compute. reflexivity.
  - vm_compute. reflexivity.
  - vm_compute. reflexivity.
Qed.

(** ** The diff engine covers the union of the paths *)

Section DiffEngine.

Implicit Types (base head : Coverage) (p : string) (ps seen : list string).

Lemma elem_of_addPath seen p q : q ∈ addPath seen p <-> q ∈ seen \/ q = p.
Proof.
  unfold addPath. case_bool_decide as Hin.
  - split; [auto|]. intros [?| ->]; assumption.
  - rewrite elem_of_app, list_elem_of_singleton. reflexivity.
Qed.

Lemma NoDup_addPath seen p : NoDup seen -> NoDup (addPath seen p).
Proof.
  intros Hnd. unfold addPath. case_bool_decide as Hin; [assumption|].
  apply NoDup_app. split; [assumption|]. split.
  - intros q Hq Hq'. apply list_elem_of_singleton in Hq'. subst. contradiction.
  - apply NoDup_singleton.
Qed.

Lemma elem_of_fold_addPath ps seen q :
  q ∈ fold_left addPath ps seen <-> q ∈ seen \/ q ∈ ps.
Proof.
  revert seen. induction ps as [|p ps IH]; intros seen; simpl.
  - rewrite elem_of_nil. tauto.
  - rewrite IH, elem_of_addPath, elem_of_cons. tauto.
Qed.

Lemma NoDup_fold_addPath ps seen :
  NoDup seen -> NoDup (fold_left addPath ps seen).
Proof.
  revert seen. induction ps as [|p ps IH]; intros seen Hnd; simpl; [assumption|].
  apply IH, NoDup_addPath, Hnd.
Qed.

Lemma elem_of_unionPaths base head q :
  q ∈ unionPaths base head <-> q ∈ paths (files base) \/ q ∈ paths (files head).
Proof.
  unfold unionPaths. rewrite elem_of_fold_addPath, elem_of_app, elem_of_nil. tauto.
Qed.

Lemma NoDup_unionPaths base head : NoDup (unionPaths base head).
Proof. apply NoDup_fold_addPath, NoDup_nil_2. Qed.

Lemma lookupFile_None p (m : CoverageMap) :
  lookupFile p m = None <-> p ∉ paths m.
Proof.
  induction m as [|[q r] m IH]; simpl.
  - split; [intros _; apply not_elem_of_nil | reflexivity].
  - rewrite not_elem_of_cons. destruct (String.eqb_spec q p) as [->|Hne].
    + split; [discriminate | intros [? _]; congruence].
    + rewrite IH. split; [intros ?; split; congruence | tauto].
Qed.

Lemma has_true c p : has c p = true <-> p ∈ paths (files c).
Proof.
  unfold has. pose proof (lookupFile_None p (files c)) as H.
  destruct (lookupFile p (files c)).
  - split; [intros _|reflexivity].
    destruct (decide (p ∈ paths (files c))) as [?|Hn]; [assumption|].
    apply H in Hn. discriminate.
  - split; [discriminate|]. intros Hin. exfalso. apply H; [reflexivity | exact Hin].
Qed.

(** The consistency check of step 4 never fires on a path of the union. *)
Lemma diffPaths_map base head ps :
  (forall p, p ∈ ps -> p ∈ paths (files base) \/ p ∈ paths (files head)) ->
  diffPaths base head ps = map (makeDiff base head) ps.
Proof.
  induction ps as [|p ps IH]; intros Hps; simpl; [reflexivity|].
  assert (has base p || has head p = true) as ->.
  { apply orb_true_iff. rewrite !has_true. apply Hps, elem_of_cons. auto. }
  rewrite IH; [reflexivity|].
  intros q Hq. apply Hps, elem_of_cons. auto.
Qed.

Lemma getCoverageDiff_map base head :
  getCoverageDiff base head = map (makeDiff base head) (unionPaths base head).
Proof.
  unfold getCoverageDiff. apply diffPaths_map.
  intros p. apply elem_of_unionPaths.
Qed.

Lemma filenames_getCoverageDiff base head :
  map filename (getCoverageDiff base head) = unionPaths base head.
Proof.
  rewrite getCoverageDiff_map, map_map. simpl. apply map_id.
Qed.

(** In a list whose keys are pairwise distinct, a key that occurs selects
    exactly one element. *)
Lemma filter_key_once {A} (key : A -> string) (l : list A) p :
  NoDup (map key l) -> p ∈ map key l ->
  length (List.filter (fun x => String.eqb (key x) p) l) = 1%nat.
Proof.
  induction l as [|x l IH]; simpl; intros Hnd Hin.
  - apply elem_of_nil in Hin. contradiction.
  - apply NoDup_cons in Hnd as [Hx Hnd].
    destruct (String.eqb_spec (key x) p) as [Heq|Hne]; simpl.
    + f_equal. subst p. clear IH Hin Hnd.
      induction l as [|y l IH]; simpl; [reflexivity|].
      rewrite map_cons, not_elem_of_cons in Hx. destruct Hx as [Hxy Hx].
      destruct (String.eqb_spec (key y) (key x)); [congruence|]. apply IH, Hx.
    + apply IH; [assumption|].
      apply elem_of_cons in Hin as [?|?]; [congruence|assumption].
Qed.

End DiffEngine.

(** C1. For every pair of coverage documents, the diff has as many records
    as the union of the file paths of base and head has elements, and every
    path of that union is the filename of exactly one record. *)
Theorem getCoverageDiff_complete (base head : Coverage) :
  let union : gset string :=
    list_to_set (paths (files base)) ∪ list_to_set (paths (files head)) in
  length (getCoverageDiff base head) = size union
  /\ forall p, p ∈ union ->
       length (List.filter (fun d => String.eqb (filename d) p)
                 (getCoverageDiff base head)) = 1%nat.
Proof.
  intros union.
  assert (Hset : union = list_to_set (unionPaths base head)).
  { apply set_eq. intros q. unfold union.
    rewrite elem_of_union, !elem_of_list_to_set, elem_of_unionPaths. reflexivity. }
  split.
  - rewrite Hset, size_list_to_set by apply NoDup_unionPaths.
    rewrite <- (filenames_getCoverageDiff base head). symmetry. apply length_map.
  - intros p Hp. apply filter_key_once.
    + rewrite filenames_getCoverageDiff. apply NoDup_unionPaths.
    + rewrite filenames_getCoverageDiff. rewrite Hset in Hp.
      apply elem_of_list_to_set in Hp. exact Hp.
Qed.

(** ** Line percentage *)

Lemma countLines_counts (ls : LineCoverage) (i c : nat) :
  countLines ls i c = ((i + instrumentableCount ls)%nat, (c + coveredCount ls)%nat).
Proof.
  unfold instrumentableCount, coveredCount.
  revert i c. induction ls as [|[hit|] ls IH]; intros i c; simpl.
  - f_equal; lia.
  - rewrite IH. destruct (0 <? hit)%N; simpl; f_equal; lia.
  - apply IH.
Qed.

(** C2. For every file record, [linesPercentage] is the number of non-null
    entries with a hit count above zero, divided by the number of non-null
    entries, times 100; it is null exactly when there is no non-null entry;
    and the lines [1, 0, null, 3] give [2 / 3 * 100]. *)
Theorem linesPercentage_correct :
  (forall r : FileCoverage,
      let instrumentable := instrumentableCount (lines r) in
      let covered := coveredCount (lines r) in
      linesPercentage r
      = (if (instrumentable =? 0)%nat then None
         else Some (mul (div (of_Z (Z.of_nat covered)) (of_Z (Z.of_nat instrumentable)))
                        (of_Z 100)))
      /\ (linesPercentage r = None <-> instrumentable = 0%nat))
  /\ linesPercentage {| lines := [Some 1; Some 0; None; Some 3]%N; branches := ∅ |}
     = Some (mul (div (of_Z 2) (of_Z 3)) (of_Z 100)).
Proof.
  split; [|vm_compute; reflexivity].
  intros r instrumentable covered. unfold linesPercentage.
  rewrite countLines_counts. simpl.
  fold instrumentable covered.
  destruct (Nat.eqb_spec instrumentable 0) as [Hz|Hnz].
  - split; [reflexivity | split; [intros _; exact Hz | reflexivity]].
  - split; [reflexivity | split; [discriminate | intros H; contradiction]].
Qed.

(** ** Merging suites *)

Section Merge.

Implicit Types (m entries : CoverageMap) (p q : string) (r : FileCoverage).

Lemma mergeLines_zip (l1 l2 : LineCoverage) :
  length l1 = length l2 -> mergeLines l1 l2 = Normal (zip_with mergeHit l1 l2).
Proof.
  revert l2. induction l1 as [|a l1 IH]; intros [|b l2] Hlen; simpl in *;
    try discriminate; [reflexivity|].
  rewrite IH by lia. reflexivity.
Qed.

(** Line arrays of different lengths do not merge. *)
Lemma mergeLines_Normal_length (l1 l2 l : LineCoverage) :
  mergeLines l1 l2 = Normal l -> length l1 = length l2.
Proof.
  revert l2 l. induction l1 as [|a l1 IH]; intros [|b l2] l; simpl; try discriminate.
  - reflexivity.
  - destruct (mergeLines l1 l2) eqn:E; [|discriminate]. intros _.
    f_equal. eapply IH, E.
Qed.

Lemma mergeFile_same_length r1 r2 :
  length (lines r1) = length (lines r2) ->
  mergeFile r1 r2
  = Normal {| lines := zip_with mergeHit (lines r1) (lines r2);
              branches := mergeBranches (branches r1) (branches r2) |}.
Proof. intros Hlen. unfold mergeFile. rewrite mergeLines_zip by exact Hlen. reflexivity. Qed.

Lemma lookupFile_app_fresh p q r m :
  lookupFile q m = None ->
  lookupFile p (m ++ [(q, r)]) = if String.eqb q p then Some r else lookupFile p m.
Proof.
  induction m as [|[q' r'] m IH]; simpl; intros Hq.
  - reflexivity.
  - destruct (String.eqb_spec q' q) as [->|Hne]; [discriminate|].
    destruct (String.eqb_spec q' p) as [->|Hne'].
    + destruct (String.eqb_spec q p); [congruence | reflexivity].
    + apply IH, Hq.
Qed.

Lemma lookupFile_replaceFile p q r m :
  is_Some (lookupFile q m) ->
  lookupFile p (replaceFile q r m) = if String.eqb q p then Some r else lookupFile p m.
Proof.
  induction m as [|[q' r'] m IH]; simpl; intros Hq.
  - destruct Hq as [? Hq]. discriminate.
  - destruct (String.eqb_spec q' q) as [->|Hne]; simpl.
    + destruct (String.eqb_spec q p); reflexivity.
    + destruct (String.eqb_spec q' p) as [->|Hne'].
      * destruct (String.eqb_spec q p); [congruence | reflexivity].
      * apply IH, Hq.
Qed.

(** One step of the build: the new entry is combined with what the map
    held under its path, and no other path is touched. *)
Lemma addFile_lookup m q r m' :
  addFile m (q, r) = Normal m' ->
  exists r', combineFile (lookupFile q m) r = Normal r'
             /\ forall p, lookupFile p m' = if String.eqb q p then Some r' else lookupFile p m.
Proof.
  unfold addFile, combineFile. destruct (lookupFile q m) as [r0|] eqn:Hq.
  - destruct (mergeFile r0 r) as [r'|e]; simpl; intros H; [|discriminate].
    injection H as <-. exists r'. split; [reflexivity|].
    intros p. apply lookupFile_replaceFile. rewrite Hq. eauto.
  - intros H. injection H as <-. exists r. split; [reflexivity|].
    intros p. apply lookupFile_app_fresh, Hq.
Qed.

Lemma addFiles_app (entries1 entries2 : CoverageMap) : forall m,
  addFiles m (entries1 ++ entries2)
  = bindC (addFiles m entries1) (fun m' => addFiles m' entries2).
Proof.
  induction entries1 as [|entry rest IH]; intros m; cbn [addFiles app].
  - reflexivity.
  - destruct (addFile m entry) as [m1|e]; cbn [bindC]; [apply IH | reflexivity].
Qed.

(** The two loops of [build] visit the records of the result set one after
    the other. *)
Lemma addSuites_entriesOf (raw : ResultSet) : forall m,
  addSuites m raw = addFiles m (entriesOf raw).
Proof.
  induction raw as [|[name s] rest IH]; intros m; cbn [addSuites entriesOf flat_map snd].
  - reflexivity.
  - rewrite addFiles_app. destruct (addFiles m (coverage s)) as [m1|e]; cbn [bindC];
      [apply IH | reflexivity].
Qed.

Lemma sumHits_single (x : option N) : sumHits [x] = x.
Proof. destruct x as [a|]; unfold sumHits; simpl; [f_equal; lia | reflexivity]. Qed.

(** Merging two entries first does not change the sum of a column. *)
Lemma sumHits_mergeHit (a b : option N) (col : list (option N)) :
  sumHits (mergeHit a b :: col) = sumHits (a :: b :: col).
Proof.
  unfold sumHits. destruct a as [x|], b as [y|]; cbn [mergeHit existsb isInstrumentable
    orb map foldr default from_option Datatypes.id]; try reflexivity.
  f_equal. lia.
Qed.

Lemma mergeBranches_mergeHit (b1 b2 : gmap string N) (k : string) :
  mergeBranches b1 b2 !! k = mergeHit (b1 !! k) (b2 !! k).
Proof.
  unfold mergeBranches. rewrite lookup_union_with.
  destruct (b1 !! k), (b2 !! k); reflexivity.
Qed.

Lemma zip_mergeHit_default (l1 l2 : list (option N)) (i : nat) :
  length l1 = length l2 ->
  default None (zip_with mergeHit l1 l2 !! i)
  = mergeHit (default None (l1 !! i)) (default None (l2 !! i)).
Proof.
  revert l2 i. induction l1 as [|a l1 IH]; intros [|b l2] i Hlen; simpl in Hlen;
    try discriminate.
  - reflexivity.
  - destruct i as [|i]; [reflexivity|]. exact (IH l2 i ltac:(lia)).
Qed.

Lemma reports_cons_same q r entries :
  reports q ((q, r) :: entries) = r :: reports q entries.
Proof. unfold reports. simpl. rewrite String.eqb_refl. reflexivity. Qed.

Lemma reports_cons_other p q r entries :
  q <> p -> reports p ((q, r) :: entries) = reports p entries.
Proof.
  intros Hne. unfold reports. simpl.
  destruct (String.eqb_spec q p); [contradiction | reflexivity].
Qed.

(** What the map holds for a path once some records have been added: the
    sums, position by position and branch by branch, over the record it held
    at first and those added for the path. *)
Lemma addFiles_rows entries : forall m m',
  addFiles m entries = Normal m' ->
  forall p,
    match option_list (lookupFile p m) ++ reports p entries with
    | [] => lookupFile p m' = None
    | r0 :: rest =>
        exists r,
          lookupFile p m' = Some r
          /\ Forall (fun x => length (lines x) = length (lines r)) (r0 :: rest)
          /\ (forall i, lineColumn i [r] = [sumHits (lineColumn i (r0 :: rest))])
          /\ (forall k, branches r !! k = sumHits (branchColumn k (r0 :: rest)))
    end.
Proof.
  induction entries as [|[q r] rest IH]; intros m m' Hadd p; cbn [addFiles] in Hadd.
  - injection Hadd as <-. unfold reports. cbn [List.filter map]. rewrite app_nil_r.
    destruct (lookupFile p m) as [r0|]; cbn [option_list]; [|reflexivity].
    exists r0. split; [reflexivity|]. split; [repeat constructor|].
    split; intros x.
    + cbn [lineColumn map]. rewrite sumHits_single. reflexivity.
    + cbn [branchColumn map]. rewrite sumHits_single. reflexivity.
  - destruct (addFile m (q, r)) as [m1|e] eqn:Hstep; [|discriminate].
    cbn [bindC] in Hadd. specialize (IH m1 m' Hadd p).
    pose proof Hstep as Hstep'.
    apply addFile_lookup in Hstep' as (r' & Hr' & Hm1).
    rewrite Hm1 in IH.
    destruct (String.eqb_spec q p) as [->|Hne].
    + rewrite reports_cons_same. cbn [option_list app] in IH.
      destruct (lookupFile p m) as [r0|] eqn:Hp; cbn [option_list app combineFile] in *.
      * unfold mergeFile in Hr'.
        destruct (mergeLines (lines r0) (lines r)) as [l|e] eqn:Hl; [|discriminate].
        cbn [bindC] in Hr'. injection Hr' as <-.
        pose proof (mergeLines_Normal_length _ _ _ Hl) as Hlen.
        rewrite mergeLines_zip in Hl by exact Hlen. injection Hl as <-.
        destruct IH as (rr & Hlook & Hall & Hlines & Hbr).
        exists rr. split; [exact Hlook|].
        apply Forall_cons in Hall as [Hl' Hall]. cbn [lines] in Hl'.
        rewrite length_zip_with in Hl'.
        split; [|split].
        -- constructor; [lia|]. constructor; [lia | exact Hall].
        -- intros i. rewrite Hlines. cbn [lineColumn map lines].
           rewrite zip_mergeHit_default by exact Hlen.
           rewrite sumHits_mergeHit. reflexivity.
        -- intros k. rewrite Hbr. cbn [branchColumn map branches].
           rewrite mergeBranches_mergeHit, sumHits_mergeHit. reflexivity.
      * injection Hr' as <-. exact IH.
    + rewrite reports_cons_other by exact Hne. exact IH.
Qed.

(** The build goes through when the records of each path have line arrays
    of one length. *)
Lemma addFiles_same_lengths entries : forall m,
  (forall p x y, x ∈ option_list (lookupFile p m) ++ reports p entries ->
                 y ∈ option_list (lookupFile p m) ++ reports p entries ->
                 length (lines x) = length (lines y)) ->
  exists m', addFiles m entries = Normal m'.
Proof.
  induction entries as [|[q r] rest IH]; intros m Hlen; cbn [addFiles].
  - eauto.
  - assert (exists m1, addFile m (q, r) = Normal m1) as [m1 Hstep].
    { unfold addFile. destruct (lookupFile q m) as [r0|] eqn:Hq0; [|eauto].
      rewrite mergeFile_same_length; [simpl; eauto|].
      apply (Hlen q); rewrite Hq0, reports_cons_same; simpl; rewrite !elem_of_cons; auto. }
    rewrite Hstep. cbn [bindC]. apply IH. intros p x y.
    apply addFile_lookup in Hstep as (r' & Hr' & Hm1). rewrite Hm1.
    destruct (String.eqb_spec q p) as [->|Hne].
    + specialize (Hlen p). rewrite reports_cons_same in Hlen.
      destruct (lookupFile p m) as [r0|] eqn:Hp; simpl in Hlen, Hr' |- *.
      * assert (length (lines r0) = length (lines r)) as Hrr.
        { apply Hlen; rewrite !elem_of_cons; auto. }
        rewrite mergeFile_same_length in Hr' by exact Hrr. injection Hr' as <-.
        assert (forall z, z ∈ {| lines := zip_with mergeHit (lines r0) (lines r);
                                 branches := mergeBranches (branches r0) (branches r) |}
                              :: reports p rest ->
                          length (lines z) = length (lines r0)) as Hz.
        { intros z Hin. apply elem_of_cons in Hin as [->|Hin].
          - cbn [lines]. rewrite length_zip_with. lia.
          - symmetry. apply Hlen; rewrite !elem_of_cons; auto. }
        intros Hx Hy. rewrite (Hz x Hx), (Hz y Hy). reflexivity.
      * injection Hr' as <-. apply Hlen.
    + specialize (Hlen p). rewrite reports_cons_other in Hlen by exact Hne. apply Hlen.
Qed.

Lemma build_entriesOf (raw : ResultSet) (c : Coverage) :
  build raw = Normal c -> addFiles [] (entriesOf raw) = Normal (files c).
Proof.
  unfold build. rewrite addSuites_entriesOf.
  destruct (addFiles [] (entriesOf raw)) as [m|e]; cbn [bindC]; [|discriminate].
  intros H. injection H as <-. reflexivity.
Qed.

End Merge.

(** C3. [build] merges the records that the suites of a result set report
    for one path by summing the hit counts: for any number of suites, the
    built document holds for the path a record whose entry at each line
    position is the sum of the hit counts reported at that position, and
    whose count for each branch is the sum of the counts reported for that
    branch, a missing one counting as 0.  For a path reported twice this
    reads: two hit counts add, two null markers stay a null marker, a null
    marker next to a hit count leaves the hit count, and the branch keys are
    the union of both sides.  The build goes through exactly when the records
    of each path have line arrays of one length.  The lines [1, 0] and [0, 2]
    merge into [1, 2], whose line percentage is 100. *)
Theorem build_merges_suites :
  (forall (raw : ResultSet) (c : Coverage) (p : string),
      build raw = Normal c ->
      match reports p (entriesOf raw) with
      | [] => lookupFile p (files c) = None
      | r0 :: rest =>
          exists r,
            lookupFile p (files c) = Some r
            /\ Forall (fun x => length (lines x) = length (lines r)) (r0 :: rest)
            /\ (forall i, (i < length (lines r))%nat ->
                   lines r !! i = Some (sumHits (lineColumn i (r0 :: rest))))
            /\ (forall k, branches r !! k = sumHits (branchColumn k (r0 :: rest)))
      end)
  /\ (forall (raw : ResultSet) (c : Coverage) (p : string) (r1 r2 : FileCoverage),
        build raw = Normal c ->
        reports p (entriesOf raw) = [r1; r2] ->
        exists r,
          lookupFile p (files c) = Some r
          /\ length (lines r1) = length (lines r2)
          /\ length (lines r) = length (lines r1)
          /\ (forall i,
                 lines r !! i
                 = match lines r1 !! i, lines r2 !! i with
                   | Some (Some a), Some (Some b) => Some (Some (a + b)%N)
                   | Some (Some a), Some None => Some (Some a)
                   | Some None, Some (Some b) => Some (Some b)
                   | Some None, Some None => Some None
                   | _, _ => None
                   end)
          /\ (forall k,
                 branches r !! k
                 = match branches r1 !! k, branches r2 !! k with
                   | None, None => None
                   | x, y => Some (default 0%N x + default 0%N y)%N
                   end))
  /\ (forall raw : ResultSet,
        (forall p x y,
            x ∈ reports p (entriesOf raw) -> y ∈ reports p (entriesOf raw) ->
            length (lines x) = length (lines y)) ->
        exists c, build raw = Normal c)
  /\ (let suite ls := {| coverage := [("a.rb", {| lines := ls; branches := ∅ |})] |} in
      exists c,
        build [("RSpec", suite [Some 1; Some 0]%N); ("Cucumber", suite [Some 0; Some 2]%N)]
        = Normal c
        /\ files c = [("a.rb", {| lines := [Some 1; Some 2]%N; branches := ∅ |})]
        /\ linesPct (percentageFor c "a.rb") = Some (of_Z 100)).
Proof.
  assert (Hgen : forall raw c p, build raw = Normal c ->
            match reports p (entriesOf raw) with
            | [] => lookupFile p (files c) = None
            | r0 :: rest =>
                exists r,
                  lookupFile p (files c) = Some r
                  /\ Forall (fun x => length (lines x) = length (lines r)) (r0 :: rest)
                  /\ (forall i, (i < length (lines r))%nat ->
                         lines r !! i = Some (sumHits (lineColumn i (r0 :: rest))))
                  /\ (forall k, branches r !! k = sumHits (branchColumn k (r0 :: rest)))
            end).
  { intros raw c p Hb. apply build_entriesOf in Hb.
    pose proof (addFiles_rows _ _ _ Hb p) as H. simpl in H.
    destruct (reports p (entriesOf raw)) as [|r0 rest]; [exact H|].
    destruct H as (r & Hlook & Hall & Hlines & Hbr).
    exists r. split; [exact Hlook|]. split; [exact Hall|]. split; [|exact Hbr].
    intros i Hi. specialize (Hlines i). cbn [lineColumn map] in Hlines.
    destruct (lookup_lt_is_Some_2 (lines r) i Hi) as [x Hx].
    rewrite Hx in Hlines |- *. injection Hlines as Hl. f_equal. exact Hl. }
  split; [exact Hgen|]. split; [|split].
  - intros raw c p r1 r2 Hb Hrows. specialize (Hgen raw c p Hb). rewrite Hrows in Hgen.
    destruct Hgen as (r & Hlook & Hall & Hlines & Hbr).
    apply Forall_cons in Hall as [H1 Hall]. apply Forall_cons in Hall as [H2 _].
    exists r. split; [exact Hlook|]. split; [lia|]. split; [lia|]. split.
    + intros i. destruct (decide (i < length (lines r))%nat) as [Hi|Hi].
      * rewrite (Hlines i Hi). cbn [lineColumn map].
        destruct (lookup_lt_is_Some_2 (lines r1) i ltac:(lia)) as [a ->].
        destruct (lookup_lt_is_Some_2 (lines r2) i ltac:(lia)) as [b ->].
        destruct a as [a|], b as [b|]; unfold sumHits; simpl; try reflexivity;
          do 2 f_equal; lia.
      * rewrite !lookup_ge_None_2 by lia. reflexivity.
    + intros k. rewrite Hbr. cbn [branchColumn map].
      destruct (branches r1 !! k) as [a|], (branches r2 !! k) as [b|];
        unfold sumHits; simpl; try reflexivity; f_equal; lia.
  - intros raw Hlen.
    destruct (addFiles_same_lengths (entriesOf raw) []) as [m Hm].
    { intros p x y. simpl. apply Hlen. }
    exists {| files := m |}. unfold build. rewrite addSuites_entriesOf, Hm. reflexivity.
  - eexists. split; [vm_compute; reflexivity|]. split; vm_compute; reflexivity.
Qed.

(** ** The end-to-end scenario *)

(** C5. For the scenario the engine emits one record: filename ["a.rb"],
    lines from [2 / 3 * 100] to 100, branches from null to null.  The [from]
    value is kept at full precision: it is the number [2 / 3 * 100] itself,
    which prints as 66.66666666666666, lies between 66.665 and 66.675 and so
    reads 66.67 to two decimal places, and is not the number 66.67; only the
    formatter truncates it, to 66.6. *)
Theorem scenario_end_to_end :
  build Scenario.base_resultset = Normal Scenario.base
  /\ build Scenario.head_resultset = Normal Scenario.head
  /\ getCoverageDiff Scenario.base Scenario.head = [Scenario.emitted]
  /\ toString Scenario.two_thirds = "66.66666666666666"
  /\ ltb (dec 66665 3) Scenario.two_thirds = true
  /\ ltb Scenario.two_thirds (dec 66675 3) = true
  /\ strict_eq Scenario.two_thirds (dec 6667 2) = false
  /\ toString (truncPercentage Scenario.two_thirds) = "66.6".
Proof.
  repeat split; vm_compute; reflexivity.
Qed.

(** ** The formatter *)

Section Strings.

Implicit Types (s t rest : string).

Lemma startsWith_app s t : startsWith (t +:+ s) t = true.
Proof.
  unfold startsWith. induction t as [|c t IH]; simpl.
  - destruct s; reflexivity.
  - destruct (ascii_dec c c); [exact IH | contradiction].
Qed.

Lemma startsWith_inv s t : startsWith s t = true -> exists rest, s = t +:+ rest.
Proof.
  unfold startsWith. revert s.
  induction t as [|c t IH]; intros [|d s] H; simpl in H.
  - exists "". reflexivity.
  - exists (String d s). reflexivity.
  - discriminate H.
  - destruct (ascii_dec c d) as [->|]; [|discriminate H].
    destruct (IH s H) as [rest ->]. exists rest. reflexivity.
Qed.

Lemma slice_app s t : slice (t +:+ s) (String.length t) = s.
Proof. induction t as [|c t IH]; simpl; [destruct s; reflexivity | exact IH]. Qed.

Lemma length_append s t :
  String.length (s +:+ t) = (String.length s + String.length t)%nat.
Proof. induction s as [|c s IH]; simpl; [reflexivity | rewrite IH; reflexivity]. Qed.

Lemma append_assoc s t rest : (s +:+ t) +:+ rest = s +:+ t +:+ rest.
Proof. induction s as [|c s IH]; [reflexivity | exact (f_equal (String c) IH)]. Qed.

Lemma append_empty_r s : s +:+ "" = s.
Proof. induction s as [|c s IH]; [reflexivity | exact (f_equal (String c) IH)]. Qed.

Lemma startsWith_length s t :
  startsWith s t = true -> (String.length t <= String.length s)%nat.
Proof.
  intros H. apply startsWith_inv in H as [rest ->]. rewrite length_append. lia.
Qed.

End Strings.

(** C10. In the first column of a row, a filename that starts with the
    workspace root followed by ['/'] loses exactly that prefix; any other
    filename is left as it is, the workspace root itself included. *)
Theorem trimWorkspacePath_spec (WORKSPACE : string) :
  (forall rest, trimWorkspacePath WORKSPACE (WORKSPACE +:+ "/" +:+ rest) = rest)
  /\ (forall filename,
        if startsWith filename (WORKSPACE +:+ "/")
        then filename = (WORKSPACE +:+ "/") +:+ trimWorkspacePath WORKSPACE filename
        else trimWorkspacePath WORKSPACE filename = filename)
  /\ trimWorkspacePath WORKSPACE WORKSPACE = WORKSPACE
  /\ (forall diff,
        formatDiff WORKSPACE diff !! 0%nat
        = Some (trimWorkspacePath WORKSPACE (filename diff))).
Proof.
  split; [|split; [|split]].
  - intros rest. unfold trimWorkspacePath.
    rewrite <- append_assoc, startsWith_app. apply slice_app.
  - intros filename. unfold trimWorkspacePath.
    destruct (startsWith filename (WORKSPACE +:+ "/")) eqn:Hs; [|reflexivity].
    apply startsWith_inv in Hs as [rest ->]. rewrite slice_app. reflexivity.
  - unfold trimWorkspacePath.
    destruct (startsWith WORKSPACE (WORKSPACE +:+ "/")) eqn:Hs; [|reflexivity].
    apply startsWith_length in Hs. rewrite length_append in Hs. simpl in Hs. lia.
  - intros diff. reflexivity.
Qed.

Lemma formatDiffItem_both_shape (f t : number) :
  exists rest, formatDiffItem {| from := Some f; to := Some t |} = String " " rest.
Proof. eexists. reflexivity. Qed.

Lemma formatDiffItem_new_shape (t : number) :
  exists rest, formatDiffItem {| from := None; to := Some t |} = String "N" rest.
Proof. eexists. reflexivity. Qed.

Lemma not_is_Some_None {A} : ~ is_Some (@None A).
Proof. intros [x Hx]. discriminate Hx. Qed.

(** C7. A cell is labelled NEW exactly when [from] is null and [to] is not,
    DELETE exactly when [to] is null and [from] is not, and is the empty
    string, with no label, percentage or badge, when both are null. *)
Theorem formatDiffItem_labels :
  (forall item,
      (created item = "NEW" <-> from item = None /\ is_Some (to item))
      /\ (deleted item = "DELETE" <-> is_Some (from item) /\ to item = None)
      /\ (String.prefix "NEW" (formatDiffItem item) = true
          <-> from item = None /\ is_Some (to item))
      /\ (String.prefix "DELETE" (formatDiffItem item) = true
          <-> is_Some (from item) /\ to item = None))
  /\ formatDiffItem {| from := None; to := None |} = ""
  /\ (forall t, formatDiffItem {| from := None; to := Some t |}
                = "NEW " +:+ toString (truncPercentage t) +:+ "%")
  /\ (forall f, formatDiffItem {| from := Some f; to := None |} = "DELETE")
  /\ (forall f t, formatDiffItem {| from := Some f; to := Some t |}
                  = " " +:+ toString (truncPercentage t) +:+ "% !["
                        +:+ toString (truncPercentage (sub t f)) +:+ "%]("
                        +:+ badgeUrl f t +:+ ")").
Proof.
  split; [|split; [|split; [|split]]].
  - intros [[f|] [t|]]; cbn [from to].
    + destruct (formatDiffItem_both_shape f t) as [rest ->].
      repeat split; try discriminate; intros [H1 H2]; discriminate.
    + change (formatDiffItem {| from := Some f; to := None |}) with "DELETE".
      repeat split; try discriminate; try reflexivity; eauto;
        intros [H1 H2]; first [discriminate | destruct (not_is_Some_None H2)].
    + destruct (formatDiffItem_new_shape t) as [rest Hrest].
      assert (String.prefix "NEW" (formatDiffItem {| from := None; to := Some t |}) = true)
        as Hnew by reflexivity.
      rewrite Hnew, Hrest.
      repeat split; try discriminate; try reflexivity; eauto;
        intros [H1 H2]; first [discriminate | destruct (not_is_Some_None H1)].
    + change (formatDiffItem {| from := None; to := None |}) with "".
      repeat split; try discriminate; intros [H1 H2];
        first [destruct (not_is_Some_None H1) | destruct (not_is_Some_None H2)].
  - reflexivity.
  - intros t. unfold formatDiffItem, created, deleted. cbn [from to].
    rewrite append_empty_r. reflexivity.
  - intros f. reflexivity.
  - intros f t. unfold formatDiffItem, created, deleted. cbn [from to].
    change ("" +:+ "" +:+ ?x) with x.
    rewrite !append_assoc. reflexivity.
Qed.

(** ** The report body *)

Lemma render_shape (table : list (list string)) :
  exists rest, Table.render table = String "|" rest.
Proof. destruct table as [|header rows]; eexists; reflexivity. Qed.

Lemma render_not_literal (table : list (list string)) :
  Table.render table <> "No differences".
Proof. destruct (render_shape table) as [rest ->]. discriminate. Qed.

Lemma unionPaths_nil (base head : Coverage) :
  unionPaths base head = [] <-> files base = [] /\ files head = [].
Proof.
  split.
  - intros Hnil.
    assert (Hno : forall p, p ∈ paths (files base) \/ p ∈ paths (files head) -> False).
    { intros p Hp. apply elem_of_unionPaths in Hp. rewrite Hnil in Hp.
      apply elem_of_nil in Hp. exact Hp. }
    split.
    + destruct (files base) as [|[p r] m]; [reflexivity|].
      exfalso. apply (Hno p). left. apply elem_of_cons. auto.
    + destruct (files head) as [|[p r] m]; [reflexivity|].
      exfalso. apply (Hno p). right. apply elem_of_cons. auto.
  - intros [Hb Hh]. unfold unionPaths. rewrite Hb, Hh. reflexivity.
Qed.

Lemma getCoverageDiff_nil (base head : Coverage) :
  getCoverageDiff base head = [] <-> files base = [] /\ files head = [].
Proof.
  rewrite <- unionPaths_nil, getCoverageDiff_map.
  destruct (unionPaths base head); simpl; split; intros H; try reflexivity; discriminate.
Qed.

Section Content.

Variable WORKSPACE : string.
Variable markdownTable : list (list string) -> string.

Lemma content_nil : content WORKSPACE markdownTable [] = "No differences".
Proof. reflexivity. Qed.

Lemma content_table (diff : list FileCoverageDiff) :
  diff <> [] ->
  content WORKSPACE markdownTable diff
  = markdownTable (["Filename"; "Lines"; "Branches"] :: map (formatDiff WORKSPACE) diff).
Proof. destruct diff; [intros H; contradiction | reflexivity]. Qed.

End Content.

(** C6. Whatever the table renderer, provided it never renders the literal
    itself: the report body is ["No differences"] if and only if the diff
    sequence is empty, which is when both documents have no file; a
    sequence that is not empty gives the table of three-cell rows under the
    header Filename, Lines, Branches, also when every record has [from]
    equal to [to]. *)
Theorem content_no_differences
    (WORKSPACE : string) (markdownTable : list (list string) -> string) :
  (forall table, markdownTable table <> "No differences") ->
  (forall diff, content WORKSPACE markdownTable diff = "No differences" <-> diff = [])
  /\ (forall diff, diff <> [] ->
        content WORKSPACE markdownTable diff
        = markdownTable (["Filename"; "Lines"; "Branches"]
                           :: map (formatDiff WORKSPACE) diff))
  /\ (forall diff,
        Forall (fun row => length row = 3%nat)
               (["Filename"; "Lines"; "Branches"] :: map (formatDiff WORKSPACE) diff))
  /\ (forall base head,
        content WORKSPACE markdownTable (getCoverageDiff base head) = "No differences"
        <-> files base = [] /\ files head = [])
  /\ (forall c, files c <> [] ->
        Forall (fun d => from (lines_diff d) = to (lines_diff d)
                         /\ from (branches_diff d) = to (branches_diff d))
               (getCoverageDiff c c)
        /\ content WORKSPACE markdownTable (getCoverageDiff c c)
           = markdownTable (["Filename"; "Lines"; "Branches"]
                              :: map (formatDiff WORKSPACE) (getCoverageDiff c c))).
Proof.
  intros Hrender.
  assert (Hiff : forall diff,
             content WORKSPACE markdownTable diff = "No differences" <-> diff = []).
  { intros diff. split.
    - intros Hc. destruct diff as [|d diff]; [reflexivity|].
      rewrite content_table in Hc by discriminate. destruct (Hrender _ Hc).
    - intros ->. apply content_nil. }
  split; [exact Hiff|]. split; [apply content_table|]. split; [|split].
  - intros diff. constructor; [reflexivity|].
    apply Forall_map, Forall_forall. intros d _. reflexivity.
  - intros base head. rewrite Hiff. apply getCoverageDiff_nil.
  - intros c Hc. split.
    + rewrite getCoverageDiff_map. apply Forall_map, Forall_forall.
      intros p _. split; reflexivity.
    + apply content_table. intros Hnil. apply getCoverageDiff_nil in Hnil. tauto.
Qed.

Lemma content_no_differences_witness :
  (forall table, Table.render table <> "No differences")
  /\ (content "/w" Table.render (getCoverageDiff Scenario.base Scenario.head)
        = "No differences"
      <-> files Scenario.base = [] /\ files Scenario.head = []).
Proof.
  split; [exact render_not_literal|].
  apply (content_no_differences "/w" Table.render render_not_literal).
Defined.

(** ** Publication without a pull request *)

Lemma quiet_ret {A} (a : A) : quiet (ret a).
Proof. intros log Hlog. exact Hlog. Qed.

Lemma quiet_lift {A} (c : completion A) : quiet (lift c).
Proof. intros log Hlog. exact Hlog. Qed.

Lemma quiet_throw {A} (message : string) : quiet (@throw A message).
Proof. apply quiet_lift. Qed.

Lemma quiet_emit (e : event) : isCreateComment e = false -> quiet (emit e).
Proof.
  intros He log Hlog. unfold emit. cbn [snd].
  rewrite existsb_app, Hlog. cbn [existsb]. rewrite He. reflexivity.
Qed.

Lemma quiet_bind {A B} (c : Run A) (k : A -> Run B) :
  quiet c -> (forall a, quiet (k a)) -> quiet (bind c k).
Proof.
  intros Hc Hk log Hlog. unfold bind. specialize (Hc log Hlog).
  destruct (c log) as [[a|e] log']; cbn [snd] in *; [apply Hk, Hc | exact Hc].
Qed.

Create HintDb quiet.
#[local] Hint Resolve quiet_ret quiet_lift quiet_throw quiet_bind : quiet.
#[local] Hint Extern 1 (quiet (emit _)) => apply quiet_emit; reflexivity : quiet.

Section Publication.

Variable WORKSPACE : string.
Variable markdownTable : list (list string) -> string.
Variable host : Host.

Lemma quiet_commitSha : quiet (commitSha host).
Proof.
  unfold commitSha.
  destruct (String.eqb (eventName (context host)) "push"); [auto with quiet|].
  destruct (String.eqb (eventName (context host)) "pull_request"
            && bool_decide (payload_action (context host) = Some "synchronize"));
    auto 10 with quiet.
Qed.

Lemma quiet_doesPathExists (filepath : string) : quiet (doesPathExists host filepath).
Proof. unfold doesPathExists. destruct (existsSync host filepath); auto with quiet. Qed.

(** Without a usable pull-request number no path through the body reaches
    the comment-creation call. *)
Lemma quiet_run_body :
  falsy (issue_number (context host)) = true ->
  quiet (run_body WORKSPACE markdownTable host).
Proof.
  intros Hfalsy. unfold run_body, parseResultset. rewrite Hfalsy.
  repeat (apply quiet_bind; [auto using quiet_doesPathExists, quiet_commitSha with quiet|];
          intros ?).
  auto with quiet.
Qed.

(** Resolving the commit only logs informational notes and never throws. *)
Lemma commitSha_infos :
  exists sha infos,
    (forall log, commitSha host log = (Normal sha, log ++ infos))
    /\ forallb isInfo infos = true.
Proof.
  unfold commitSha.
  destruct (String.eqb (eventName (context host)) "push").
  - exists (payload_after (context host)), [Info "Pull sha from pushEvent"].
    split; [intros log; reflexivity | reflexivity].
  - destruct (String.eqb (eventName (context host)) "pull_request"
              && bool_decide (payload_action (context host) = Some "synchronize")).
    + exists (payload_after (context host)),
        [Info "Pull sha from PullRequestSynchronizeEvent"].
      split; [intros log; reflexivity | reflexivity].
    + exists (sha (context host)),
        [Info "Unsupported event";
         Info ("eventName: " +:+ eventName (context host));
         Info (payload_json (context host))].
      split; [|reflexivity].
      intros log. unfold bind, emit, ret. rewrite <- !app_assoc. reflexivity.
Qed.

End Publication.

Lemma infos_not_SetFailed (infos : list event) :
  forallb isInfo infos = true -> existsb isSetFailed infos = false.
Proof.
  induction infos as [|[] infos IH]; simpl; intros H; try discriminate; auto.
Qed.

(** One step of a run whose outcome a hypothesis gives. *)
Ltac run_step H := unfold bind at 1; rewrite H; cbn [ret lift app].

(** C8. When the context has no usable pull-request number, no run makes a
    comment-creation call; and when such a run reaches publication (both
    result sets exist and parse, both documents build, the API client is
    created), it logs a warning and then the report message and sets no
    failure status. *)
Theorem run_without_pull_request
    (WORKSPACE : string) (markdownTable : list (list string) -> string) (host : Host) :
  falsy (issue_number (context host)) = true ->
  existsb isCreateComment (run WORKSPACE markdownTable host) = false
  /\ forall (base_raw head_raw : ResultSet) (base head : Coverage),
       let base_path := resolve host (cwd host) (getInput host "base-resultset-path") in
       let head_path := resolve host (cwd host) (getInput host "head-resultset-path") in
       existsSync host base_path = true ->
       existsSync host head_path = true ->
       readResultset host (resolve host WORKSPACE base_path) = Normal base_raw ->
       readResultset host (resolve host WORKSPACE head_path) = Normal head_raw ->
       build base_raw = Normal base ->
       build head_raw = Normal head ->
       getOctokit host (getInput host "token") = Normal tt ->
       exists sha infos,
         commitSha host [] = (Normal sha, infos)
         /\ forallb isInfo infos = true
         /\ run WORKSPACE markdownTable host
            = infos ++ [Warning "Cannot find the PR id.";
                        Info (message (content WORKSPACE markdownTable
                                         (getCoverageDiff base head)) sha)]
         /\ existsb isSetFailed (run WORKSPACE markdownTable host) = false.
Proof.
  intros Hfalsy. split.
  - unfold run.
    pose proof (quiet_run_body WORKSPACE markdownTable host Hfalsy [] eq_refl) as Hq.
    destruct (run_body WORKSPACE markdownTable host []) as [[u|e] log]; cbn [snd] in Hq.
    + exact Hq.
    + rewrite existsb_app, Hq. reflexivity.
  - intros base_raw head_raw base head base_path head_path
           Hbase Hhead Hrb Hrh Hbb Hbh Hocto.
    destruct (commitSha_infos host) as (sha & infos & Hsha & Hinfos).
    exists sha, infos.
    assert (Hrun : run WORKSPACE markdownTable host
                   = infos ++ [Warning "Cannot find the PR id.";
                               Info (message (content WORKSPACE markdownTable
                                                (getCoverageDiff base head)) sha)]).
    { unfold run, run_body, doesPathExists, parseResultset.
      fold base_path head_path.
      run_step Hbase. run_step Hhead. run_step Hrb. run_step Hrh.
      run_step Hbb. run_step Hbh. run_step Hsha. run_step Hocto.
      rewrite Hfalsy. unfold bind, emit. rewrite <- app_assoc. reflexivity. }
    split; [rewrite Hsha; reflexivity|]. split; [exact Hinfos|]. split; [exact Hrun|].
    rewrite Hrun, existsb_app, (infos_not_SetFailed _ Hinfos). reflexivity.
Qed.

Lemma run_without_pull_request_witness :
  falsy (issue_number (context ScenarioHost.host)) = true
  /\ existsb isCreateComment (run "/w" Table.render ScenarioHost.host) = false
  /\ exists sha infos,
       commitSha ScenarioHost.host [] = (Normal sha, infos)
       /\ forallb isInfo infos = true
       /\ run "/w" Table.render ScenarioHost.host
          = infos ++ [Warning "Cannot find the PR id.";
                      Info (message (content "/w" Table.render
                                       (getCoverageDiff Scenario.base Scenario.head)) sha)]
       /\ existsb isSetFailed (run "/w" Table.render ScenarioHost.host) = false.
Proof.
  split; [reflexivity|].
  destruct (run_without_pull_request "/w" Table.render ScenarioHost.host eq_refl)
    as [Hquiet Hreach].
  split; [exact Hquiet|].
  apply (Hreach Scenario.base_resultset Scenario.head_resultset
           Scenario.base Scenario.head);
    vm_compute; reflexivity.
Defined.

Lemma build_merges_suites_witness :
  let raw :=
    [("RSpec", {| coverage := [("a.rb", Scenario.file [Some 1; None; Some 0]%N)] |});
     ("Cucumber", {| coverage := [("b.rb", Scenario.file [Some 1]%N);
                                  ("a.rb", Scenario.file [Some 0; None; Some 2]%N)] |});
     ("Minitest", {| coverage := [("a.rb", Scenario.file [None; None; Some 4]%N)] |})] in
  let c := {| files := [("a.rb", Scenario.file [Some 1; None; Some 6]%N);
                        ("b.rb", Scenario.file [Some 1]%N)] |} in
  build raw = Normal c
  /\ exists r,
       lookupFile "a.rb" (files c) = Some r
       /\ Forall (fun x => length (lines x) = length (lines r))
                 (reports "a.rb" (entriesOf raw))
       /\ (forall i, (i < length (lines r))%nat ->
              lines r !! i
              = Some (sumHits (lineColumn i (reports "a.rb" (entriesOf raw)))))
       /\ (forall k, branches r !! k
                     = sumHits (branchColumn k (reports "a.rb" (entriesOf raw)))).
Proof.
  intros raw c.
  assert (Hb : build raw = Normal c) by (vm_compute; reflexivity).
  split; [exact Hb|].
  exact (proj1 build_merges_suites raw c "a.rb" Hb).
Defined.

(** ** Determinism and order of the diff *)

Section Order.

Implicit Types (m : CoverageMap) (p q : string) (acc l : list string).










End Order.

Section Runs.

Import DiffLoop.









End Runs.



Example mergeBranches_example :
  mergeBranches {[ "then" := 1%N; "else" := 0%N ]} {[ "else" := 2%N; "when" := 4%N ]}
  = {[ "then" := 1%N; "else" := 2%N; "when" := 4%N ]}.
Proof. vm_compute. reflexivity. Qed.

(** * Further properties of [main.ts] *)

(** ** Truncation of percentages *)

Lemma same_eq (a b : number) : same a b = true -> a = b.
Proof.
  destruct a as [s|s| |s m e], b as [s'|s'| |s' m' e']; simpl; try discriminate.
  - intros H. apply Bool.eqb_prop in H. congruence.
  - intros H. apply Bool.eqb_prop in H. congruence.
  - reflexivity.
  - intros H. apply andb_true_iff in H as [H He]. apply andb_true_iff in H as [Hs Hm].
    apply Bool.eqb_prop in Hs. apply Pos.eqb_eq in Hm. apply Z.eqb_eq in He. congruence.
Qed.

Lemma upto_forallb (P : Z -> bool) (n : Z) :
  forallb P (upto n) = true -> forall k, 0 <= k < n -> P k = true.
Proof.
  intros H k Hk. apply (proj1 (forallb_forall P (upto n)) H).
  unfold upto. apply in_map_iff. exists (Z.to_nat k). split; [lia|].
  apply in_seq. lia.
Qed.

Lemma binary_round_aux_opp s m e l :
  binary_round_aux prec emax (negb s) m e l = SFopp (binary_round_aux prec emax s m e l).
Proof.
  unfold binary_round_aux.
  destruct (shr_fexp prec emax m e l) as [mrs' e'].
  destruct (shr_fexp prec emax _ e' loc_Exact) as [mrs'' e''].
  destruct (shr_m mrs'') as [|q|q]; try reflexivity.
  destruct (e'' <=? emax - prec); reflexivity.
Qed.

Lemma mul_opp_l (a b : number) : mul (SFopp a) b = SFopp (mul a b).
Proof.
  unfold mul.
  destruct a as [sa|sa| |sa ma ea], b as [sb|sb| |sb mb eb]; simpl;
    try reflexivity; try (destruct sa, sb; reflexivity).
  rewrite <- binary_round_aux_opp. destruct sa, sb; reflexivity.
Qed.

Lemma Math_sign_opp (x : number) : Math_sign (SFopp x) = SFopp (Math_sign x).
Proof. destruct x as [s|[]| |[] m e]; reflexivity. Qed.

Lemma abs_opp (x : number) : abs (SFopp x) = abs x.
Proof. destruct x; reflexivity. Qed.

Lemma truncPercentage_opp (x : number) :
  truncPercentage (SFopp x) = SFopp (truncPercentage x).
Proof.
  unfold truncPercentage. rewrite Math_sign_opp, abs_opp. apply mul_opp_l.
Qed.

(** X1. Truncation is odd: the truncated value of [-x] is the negation of
    the truncated value of [x], for every number; and NaN, both zeros and
    both infinities are returned as they are. *)
Theorem truncPercentage_odd :
  (forall x : number, truncPercentage (SFopp x) = SFopp (truncPercentage x))
  /\ (forall x : number,
        match x with
        | S754_finite _ _ _ => True
        | _ => truncPercentage x = x
        end).
Proof.
  split.
  - exact truncPercentage_opp.
  - intros [[]|[]| |s m e]; try exact I; vm_compute; reflexivity.
Qed.


(** ** Badges *)

Section Rounding.

Implicit Types (mrs : shr_record) (m e : Z) (s : bool).

Lemma shr_1_nonneg mrs : 0 <= shr_m mrs -> 0 <= shr_m (shr_1 mrs).
Proof.
  destruct mrs as [m r s']. destruct m as [|[p|p|]|[p|p|]]; simpl; lia.
Qed.

Lemma iter_shr_1_nonneg (p : positive) : forall mrs,
  0 <= shr_m mrs -> 0 <= shr_m (SpecFloat.iter_pos shr_1 p mrs).
Proof.
  induction p as [p IH|p IH|]; intros mrs H; simpl.
  - apply IH, IH, shr_1_nonneg, H.
  - apply IH, IH, H.
  - apply shr_1_nonneg, H.
Qed.

Lemma shr_fexp_nonneg m e (l : location) :
  0 <= m -> 0 <= shr_m (shr_fexp prec emax m e l).1.
Proof.
  intros Hm. unfold shr_fexp, shr.
  assert (H0 : 0 <= shr_m (shr_record_of_loc m l)).
  { destruct l as [|[]]; exact Hm. }
  destruct (fexp prec emax (Zdigits2 m + e) - e) as [|p|p]; cbn [fst]; try exact H0.
  apply iter_shr_1_nonneg, H0.
Qed.

Lemma round_nearest_even_nonneg m (l : location) :
  0 <= m -> 0 <= round_nearest_even m l.
Proof.
  intros Hm. destruct l as [|[]]; simpl; try lia. destruct (Z.even m); lia.
Qed.

(** Rounding a mantissa that is not negative never gives NaN. *)
Lemma binary_round_aux_not_nan s m e (l : location) :
  0 <= m -> binary_round_aux prec emax s m e l <> S754_nan.
Proof.
  intros Hm. unfold binary_round_aux.
  pose proof (shr_fexp_nonneg m e l Hm) as H1.
  destruct (shr_fexp prec emax m e l) as [mrs' e']. cbn [fst] in H1.
  pose proof (shr_fexp_nonneg _ e' loc_Exact
                (round_nearest_even_nonneg _ (loc_of_shr_record mrs') H1)) as H2.
  destruct (shr_fexp prec emax _ e' loc_Exact) as [mrs'' e'']. cbn [fst] in H2.
  destruct (shr_m mrs'') as [|q|q]; [discriminate| |lia].
  destruct (e'' <=? emax - prec); discriminate.
Qed.

Lemma binary_round_not_nan s (m : positive) e :
  binary_round prec emax s m e <> S754_nan.
Proof.
  unfold binary_round. destruct (shl_align m e _) as [mz ez].
  apply binary_round_aux_not_nan. lia.
Qed.

Lemma binary_round_opp s (m : positive) e :
  binary_round prec emax (negb s) m e = SFopp (binary_round prec emax s m e).
Proof.
  unfold binary_round. destruct (shl_align m e _) as [mz ez].
  apply binary_round_aux_opp.
Qed.

Lemma binary_normalize_opp m e :
  m <> 0 ->
  binary_normalize prec emax (- m) e false = SFopp (binary_normalize prec emax m e false).
Proof.
  destruct m as [|p|p]; intros Hm; [contradiction| |]; simpl.
  - apply (binary_round_opp false).
  - rewrite (binary_round_opp false).
    destruct (binary_round prec emax false p e) as [[]|[]| |[] q e']; reflexivity.
Qed.

End Rounding.

Section Difference.

Implicit Types (x y f t d : number).

(** A number minus itself is a zero. *)
Lemma sub_diag x : isFinite x = true -> exists s, sub x x = S754_zero s.
Proof.
  destruct x as [[]|s| |s m e]; try discriminate; intros _.
  - exists false. reflexivity.
  - exists false. reflexivity.
  - exists false. unfold sub, SFsub. rewrite Z.sub_diag. reflexivity.
Qed.

Lemma sub_not_nan x y : isFinite x = true -> isFinite y = true -> sub x y <> S754_nan.
Proof.
  destruct x as [sx|sx| |sx mx ex], y as [sy|sy| |sy my ey]; try discriminate; intros _ _.
  - destruct sx, sy; discriminate.
  - unfold sub, SFsub.
    destruct (cond_Zopp sx _ - cond_Zopp sy _) as [|p|p]; simpl;
      [discriminate | apply binary_round_not_nan | apply binary_round_not_nan].
Qed.

(** Exchanging the operands of a subtraction negates the result, unless
    both results are zeros. *)
Lemma sub_swap x y :
  isFinite x = true -> isFinite y = true ->
  sub x y = SFopp (sub y x)
  \/ exists s s', sub x y = S754_zero s /\ sub y x = S754_zero s'.
Proof.
  destruct x as [sx|sx| |sx mx ex], y as [sy|sy| |sy my ey]; try discriminate; intros _ _.
  - right. destruct sx, sy; eauto.
  - left. reflexivity.
  - left. destruct sx; reflexivity.
  - unfold sub, SFsub. rewrite (Z.min_comm ey ex).
    set (a := cond_Zopp sx (Z.pos (shl_align mx ex (Z.min ex ey)).1)).
    set (b := cond_Zopp sy (Z.pos (shl_align my ey (Z.min ex ey)).1)).
    destruct (Z.eq_dec (b - a) 0) as [Hz|Hnz].
    + right. exists false, false. replace (a - b) with 0 by lia. rewrite Hz. split; reflexivity.
    + left. replace (a - b) with (- (b - a)) by lia. apply binary_normalize_opp, Hnz.
Qed.

Lemma sub_zero_r d : sub d (of_Z 0) = d.
Proof. destruct d as [[]|s| |s m e]; reflexivity. Qed.

End Difference.

Section Badges.

Implicit Types (f t d : number).

Lemma badgeUrl_parts f t :
  badgeUrl f t
  = badgeOfParts (Math_sign (sub t f)) (Math_trunc (mul (abs (sub t f)) (of_Z 10))).
Proof. reflexivity. Qed.

Lemma truncPercentage_zero (s : bool) : truncPercentage (S754_zero s) = S754_zero s.
Proof. destruct s; vm_compute; reflexivity. Qed.

Lemma formatDiffItem_changed f t :
  formatDiffItem {| from := Some f; to := Some t |}
  = " " +:+ toString (truncPercentage t) +:+ "% !["
        +:+ toString (truncPercentage (sub t f)) +:+ "%]("
        +:+ badgeUrl f t +:+ ")".
Proof.
  unfold formatDiffItem, created, deleted. cbn [from to].
  change ("" +:+ "" +:+ ?x) with x.
  rewrite !append_assoc. reflexivity.
Qed.

Lemma badgeUrl_zero_difference f t (s : bool) :
  sub t f = S754_zero s -> badgeUrl f t = badgeTop +:+ "/0.svg".
Proof.
  intros Hd. unfold badgeUrl. rewrite Hd, truncPercentage_zero. reflexivity.
Qed.

Lemma badgeOfParts_opp (sign tenths : number) :
  (sign = of_Z 1 \/ sign = of_Z (-1)) ->
  (badgeOfParts sign tenths = badgeTop +:+ "/0.svg"
   /\ badgeOfParts (SFopp sign) tenths = badgeTop +:+ "/0.svg")
  \/ exists rest,
       (badgeOfParts sign tenths = badgeTop +:+ "/up/" +:+ rest
        /\ badgeOfParts (SFopp sign) tenths = badgeTop +:+ "/down/" +:+ rest)
       \/ (badgeOfParts sign tenths = badgeTop +:+ "/down/" +:+ rest
           /\ badgeOfParts (SFopp sign) tenths = badgeTop +:+ "/up/" +:+ rest).
Proof.
  intros Hsign. unfold badgeOfParts.
  rewrite mul_opp_l, abs_opp.
  set (diff := abs (mul sign (div tenths (of_Z 10)))).
  destruct (strict_eq diff (of_Z 0)); [left; split; reflexivity|].
  right. eexists. destruct Hsign as [-> | ->].
  - left. split; reflexivity.
  - right. split; reflexivity.
Qed.

End Badges.

(** X3. A metric that did not change gets the neutral badge: for every
    finite percentage [f], [badgeUrl f f] is the image [0.svg], and the cell
    of an unchanged metric shows its percentage followed by a 0% badge. *)
Theorem unchanged_metric_badge (f : number) :
  isFinite f = true ->
  badgeUrl f f = badgeTop +:+ "/0.svg"
  /\ formatDiffItem {| from := Some f; to := Some f |}
     = " " +:+ toString (truncPercentage f) +:+ "% ![0%](" +:+ badgeTop +:+ "/0.svg)".
Proof.
  intros Hf. destruct (sub_diag f Hf) as [s Hs].
  pose proof (badgeUrl_zero_difference f f s Hs) as Hbadge.
  split; [exact Hbadge|].
  rewrite formatDiffItem_changed, Hbadge, Hs, truncPercentage_zero. reflexivity.
Qed.

Lemma unchanged_metric_badge_witness :
  isFinite Scenario.two_thirds = true
  /\ formatDiffItem {| from := Some Scenario.two_thirds; to := Some Scenario.two_thirds |}
     = " 66.6% ![0%](https://raw.githubusercontent.com/kzkn/simplecov-resultset-diff-action/main/assets/0.svg)".
Proof.
  split; [reflexivity|].
  rewrite (proj2 (unchanged_metric_badge Scenario.two_thirds eq_refl)).
  vm_compute. reflexivity.
Defined.

(** X4. Exchanging base and head turns the badge around and keeps its
    magnitude: for finite percentages either both badges are the neutral
    image, or one is [up/<rest>] and the other [down/<rest>] with the same
    [<rest>]. *)
Theorem badgeUrl_swap (f t : number) :
  isFinite f = true -> isFinite t = true ->
  (badgeUrl f t = badgeTop +:+ "/0.svg" /\ badgeUrl t f = badgeTop +:+ "/0.svg")
  \/ exists rest,
       (badgeUrl f t = badgeTop +:+ "/up/" +:+ rest
        /\ badgeUrl t f = badgeTop +:+ "/down/" +:+ rest)
       \/ (badgeUrl f t = badgeTop +:+ "/down/" +:+ rest
           /\ badgeUrl t f = badgeTop +:+ "/up/" +:+ rest).
Proof.
  intros Hf Ht.
  destruct (sub_swap f t Hf Ht) as [Hopp | (s & s' & Hz & Hz')].
  - (* the two differences are opposite *)
    pose proof (sub_not_nan t f Ht Hf) as Hnan.
    rewrite (badgeUrl_parts f t), (badgeUrl_parts t f). rewrite Hopp.
    rewrite Math_sign_opp, abs_opp.
    destruct (sub t f) as [s|s| |s m e] eqn:Hd.
    + left. destruct s; split; vm_compute; reflexivity.
    + apply badgeOfParts_opp. destruct s; auto.
    + contradiction.
    + apply badgeOfParts_opp. destruct s; auto.
  - left. split; eapply badgeUrl_zero_difference; eassumption.
Qed.

Lemma badgeUrl_swap_witness :
  isFinite Scenario.two_thirds = true /\ isFinite (of_Z 100) = true
  /\ badgeUrl Scenario.two_thirds (of_Z 100) = badgeTop +:+ "/up/33/33.3.svg"
  /\ badgeUrl (of_Z 100) Scenario.two_thirds = badgeTop +:+ "/down/33/33.3.svg".
Proof.
  split; [reflexivity|]. split; [reflexivity|].
  destruct (badgeUrl_swap Scenario.two_thirds (of_Z 100) eq_refl eq_refl)
    as [[_ _] | [rest _]]; split; vm_compute; reflexivity.
Defined.

Lemma badge_tenths_check :
  forallb (fun n =>
             String.eqb (badgeOfParts (of_Z 1) (of_Z n)) (badgeFile false n)
             && ((n =? 0) || match of_Z n with S754_finite _ _ _ => true | _ => false end))
          (upto 1001) = true.
Proof. vm_compute. reflexivity. Qed.

(** The badge of a decrease is the badge of the increase of the same
    magnitude, under [down]. *)
Lemma badgeOfParts_down (tenths : number) (n : Z) :
  badgeOfParts (of_Z 1) tenths = badgeFile false n ->
  badgeOfParts (of_Z (-1)) tenths = badgeFile true n.
Proof.
  unfold badgeOfParts, badgeFile.
  change (of_Z (-1)) with (SFopp (of_Z 1)). rewrite mul_opp_l, abs_opp.
  set (diff := abs (mul (of_Z 1) (div tenths (of_Z 10)))).
  change (ltb (of_Z 1) (of_Z 0)) with false.
  change (ltb (SFopp (of_Z 1)) (of_Z 0)) with true.
  cbv iota.
  destruct (strict_eq diff (of_Z 0)), (n =? 0); intros H.
  - reflexivity.
  - apply (inj (String.app badgeTop)) in H. discriminate H.
  - apply (inj (String.app badgeTop)) in H. discriminate H.
  - apply (inj (String.app badgeTop)) in H.
    apply (inj (String.app "/")) in H. apply (inj (String.app "up")) in H.
    rewrite H. reflexivity.
Qed.

Lemma badgeUrl_tenths (f t : number) (n : Z) :
  0 <= n <= 1000 ->
  Math_trunc (mul (abs (sub t f)) (of_Z 10)) = of_Z n ->
  badgeUrl f t = badgeFile (signbit (sub t f)) n.
Proof.
  intros Hn Htenths.
  pose proof (upto_forallb _ _ badge_tenths_check n ltac:(lia)) as Hcheck.
  cbv beta in Hcheck.
  apply andb_true_iff in Hcheck as [Hup Hfin].
  apply String.eqb_eq in Hup.
  pose proof (badgeOfParts_down _ _ Hup) as Hdown.
  destruct (sub t f) as [s|s| |s m e] eqn:Hd; cbn [signbit].
  - (* no difference at all: the tenths are a zero *)
    rewrite (badgeUrl_zero_difference f t s Hd).
    destruct (Z.eqb_spec n 0) as [->|Hnz]; [reflexivity|].
    exfalso. cbn [orb] in Hfin. rewrite <- Htenths in Hfin. discriminate Hfin.
  - exfalso. destruct (Z.eqb_spec n 0) as [->|Hnz]; [discriminate Htenths|].
    cbn [orb] in Hfin. rewrite <- Htenths in Hfin. discriminate Hfin.
  - exfalso. destruct (Z.eqb_spec n 0) as [->|Hnz]; [discriminate Htenths|].
    cbn [orb] in Hfin. rewrite <- Htenths in Hfin. discriminate Hfin.
  - rewrite badgeUrl_parts, Hd, Htenths. cbn [Math_sign]. destruct s; assumption.
Qed.

(** X5. Badge images are well formed: whenever the magnitude of the
    difference, in truncated tenths of a point, is a whole number [n] from 0
    to 1000, the badge is the neutral image for [n = 0], and otherwise
    [<top>/up/<n div 10>/<n div 10>.<n mod 10>.svg] for an increase and the
    same under [down] for a decrease. *)
Theorem badgeUrl_well_formed (f t : number) (n : Z) :
  0 <= n <= 1000 ->
  Math_trunc (mul (abs (sub t f)) (of_Z 10)) = of_Z n ->
  badgeUrl f t = badgeFile (signbit (sub t f)) n.
Proof. exact (badgeUrl_tenths f t n). Qed.

Lemma badgeUrl_well_formed_witness :
  0 <= 333 <= 1000
  /\ Math_trunc (mul (abs (sub (of_Z 100) Scenario.two_thirds)) (of_Z 10)) = of_Z 333
  /\ badgeUrl Scenario.two_thirds (of_Z 100) = badgeFile false 333.
Proof.
  split; [lia|]. split; [vm_compute; reflexivity|].
  apply (badgeUrl_well_formed Scenario.two_thirds (of_Z 100) 333);
    [lia | vm_compute; reflexivity].
Defined.

Lemma toString_negative (m : positive) (e : Z) :
  toString (S754_finite true m e) = "-" +:+ toString (S754_finite false m e).
Proof.
  unfold toString.
  destruct (shortest 17 m e _ 1) as [s0 p0]. destruct (strip_zeros 400 s0 p0) as [s1 p1].
  reflexivity.
Qed.

Lemma one_decimal_check :
  forallb (fun n =>
             let D := dec n 1 in
             same (mul (of_Z 1) D) D
             && String.eqb (toString D) (oneDecimal n)
             && ((n =? 0)
                 || match of_Z n, D with
                    | S754_finite _ _ _, S754_finite false _ _ => true
                    | _, _ => false
                    end)
             && isFinite (of_Z n))
          (upto 1001) = true.
Proof. vm_compute. reflexivity. Qed.

Lemma truncPercentage_tenths (t : number) (n : Z) :
  0 <= n <= 1000 ->
  Math_trunc (mul (abs t) (of_Z 10)) = of_Z n ->
  truncPercentage t = (if signbit t then SFopp (dec n 1) else dec n 1)
  /\ toString (truncPercentage t)
     = (if signbit t && negb (n =? 0) then "-" else "") +:+ oneDecimal n.
Proof.
  intros Hn Htenths.
  pose proof (upto_forallb _ _ one_decimal_check n ltac:(lia)) as Hcheck.
  cbv beta zeta in Hcheck.
  apply andb_true_iff in Hcheck as [Hcheck Hfin].
  apply andb_true_iff in Hcheck as [Hcheck Hshape].
  apply andb_true_iff in Hcheck as [Hpos Htext].
  apply same_eq in Hpos. apply String.eqb_eq in Htext.
  assert (Hneg : mul (of_Z (-1)) (dec n 1) = SFopp (dec n 1)).
  { change (of_Z (-1)) with (SFopp (of_Z 1)). rewrite mul_opp_l, Hpos. reflexivity. }
  assert (Hvalue : truncPercentage t = (if signbit t then SFopp (dec n 1) else dec n 1)).
  { unfold truncPercentage. rewrite Htenths.
    destruct t as [s|s| |s m e]; cbn [Math_sign signbit].
    - (* a zero: [n] is 0 *)
      destruct (Z.eqb_spec n 0) as [->|Hnz]; [destruct s; vm_compute; reflexivity|].
      exfalso. cbn [orb] in Hshape. rewrite <- Htenths in Hshape. discriminate Hshape.
    - exfalso. rewrite <- Htenths in Hfin. discriminate Hfin.
    - exfalso. rewrite <- Htenths in Hfin. discriminate Hfin.
    - destruct s; assumption. }
  split; [exact Hvalue|]. rewrite Hvalue.
  destruct (signbit t); cbn [andb]; [|exact Htext].
  destruct (Z.eqb_spec n 0) as [->|Hnz]; [vm_compute; reflexivity|].
  cbn [orb negb] in *. destruct (of_Z n) as [| | |sn mn en]; try discriminate Hshape.
  destruct (dec n 1) as [| | |[] md ed]; try discriminate Hshape.
  cbn [SFopp negb]. rewrite toString_negative, Htext. reflexivity.
Qed.

(** X2. On the percentage range the truncated value is exactly a one-decimal
    number and prints as one: for every number [t] whose magnitude, in
    truncated tenths, is a whole number [n] from 0 to 1000,
    [truncPercentage t] is the number [n / 10] with the sign of [t], and its
    text is [<units>] or [<units>.<tenth>], after a minus sign for a negative
    [t] with [n] not 0.  So 99.99 gives 99.9 and prints as 99.9. *)
Theorem truncPercentage_one_decimal (t : number) (n : Z) :
  0 <= n <= 1000 ->
  Math_trunc (mul (abs t) (of_Z 10)) = of_Z n ->
  truncPercentage t = (if signbit t then SFopp (dec n 1) else dec n 1)
  /\ toString (truncPercentage t)
     = (if signbit t && negb (n =? 0) then "-" else "") +:+ oneDecimal n.
Proof. exact (truncPercentage_tenths t n). Qed.

Lemma truncPercentage_one_decimal_witness :
  0 <= 999 <= 1000
  /\ Math_trunc (mul (abs (dec 9999 2)) (of_Z 10)) = of_Z 999
  /\ truncPercentage (dec 9999 2) = dec 999 1
  /\ toString (truncPercentage (dec 9999 2)) = "99.9".
Proof.
  split; [lia|]. split; [vm_compute; reflexivity|].
  apply (truncPercentage_one_decimal (dec 9999 2) 999);
    [lia | vm_compute; reflexivity].
Defined.

(** X6. The percentage printed in a cell is the coverage cut to one decimal,
    without floating-point noise: for every coverage [t] that is not negative
    and whose truncated tenths are a whole number [n] from 0 to 1000, the
    cell of a new file reads [NEW <units>[.<tenth>]%], and the cell of a file
    present on both sides starts with the same percentage text. *)
Theorem formatDiffItem_percentage_text (t f : number) (n : Z) :
  0 <= n <= 1000 ->
  Math_trunc (mul (abs t) (of_Z 10)) = of_Z n ->
  signbit t = false ->
  formatDiffItem {| from := None; to := Some t |} = "NEW " +:+ oneDecimal n +:+ "%"
  /\ exists badge,
       formatDiffItem {| from := Some f; to := Some t |}
       = " " +:+ oneDecimal n +:+ "%" +:+ badge.
Proof.
  intros Hn Htenths Hsign.
  pose proof (upto_forallb _ _ one_decimal_check n ltac:(lia)) as Hcheck.
  cbv beta zeta in Hcheck.
  apply andb_true_iff in Hcheck as [Hcheck Hfin].
  apply andb_true_iff in Hcheck as [Hcheck Hshape].
  apply andb_true_iff in Hcheck as [Hpos Htext].
  apply same_eq in Hpos. apply String.eqb_eq in Htext.
  assert (Hvalue : toString (truncPercentage t) = oneDecimal n).
  { unfold truncPercentage. rewrite Htenths.
    destruct t as [s|s| |s m e]; cbn [Math_sign signbit] in *.
    - destruct (Z.eqb_spec n 0) as [->|Hnz]; [destruct s; vm_compute; reflexivity|].
      exfalso. cbn [orb] in Hshape. rewrite <- Htenths in Hshape. discriminate Hshape.
    - exfalso. rewrite <- Htenths in Hfin. discriminate Hfin.
    - exfalso. rewrite <- Htenths in Hfin. discriminate Hfin.
    - subst s. change (div (of_Z n) (of_Z 10)) with (dec n 1). rewrite Hpos. exact Htext. }
  split.
  - unfold formatDiffItem, created, deleted. cbn [from to].
    rewrite append_empty_r, Hvalue. reflexivity.
  - exists (" ![" +:+ toString (truncPercentage (sub t f)) +:+ "%]("
               +:+ badgeUrl f t +:+ ")").
    rewrite formatDiffItem_changed, Hvalue. reflexivity.
Qed.

Lemma formatDiffItem_percentage_text_witness :
  0 <= 999 <= 1000
  /\ Math_trunc (mul (abs (dec 9999 2)) (of_Z 10)) = of_Z 999
  /\ signbit (dec 9999 2) = false
  /\ formatDiffItem {| from := None; to := Some (dec 9999 2) |} = "NEW 99.9%".
Proof.
  split; [lia|]. split; [vm_compute; reflexivity|]. split; [vm_compute; reflexivity|].
  apply (formatDiffItem_percentage_text (dec 9999 2) (of_Z 0) 999);
    [lia | vm_compute; reflexivity | vm_compute; reflexivity].
Defined.

(** X15. The cell of a metric present on both sides is well formed on the
    percentage range: when the new coverage [t] is not negative with [nt]
    truncated tenths and the difference [t - f] has [nd] truncated tenths,
    both whole numbers from 0 to 1000, the cell is the percentage of [t],
    then the signed difference as the badge's text, then the badge image of
    [nd] tenths in the direction of the difference. *)
Theorem formatDiffItem_changed_cell (f t : number) (nt nd : Z) :
  0 <= nt <= 1000 ->
  Math_trunc (mul (abs t) (of_Z 10)) = of_Z nt ->
  signbit t = false ->
  0 <= nd <= 1000 ->
  Math_trunc (mul (abs (sub t f)) (of_Z 10)) = of_Z nd ->
  formatDiffItem {| from := Some f; to := Some t |}
  = " " +:+ oneDecimal nt +:+ "% !["
        +:+ (if signbit (sub t f) && negb (nd =? 0) then "-" else "")
        +:+ oneDecimal nd +:+ "%]("
        +:+ badgeFile (signbit (sub t f)) nd +:+ ")".
Proof.
  intros Hnt Ht Hsign Hnd Hd.
  rewrite formatDiffItem_changed.
  rewrite (proj2 (truncPercentage_tenths t nt Hnt Ht)), Hsign.
  rewrite (proj2 (truncPercentage_tenths (sub t f) nd Hnd Hd)).
  rewrite (badgeUrl_tenths f t nd Hnd Hd).
  cbn [andb]. change ("" +:+ ?x) with x.
  rewrite !append_assoc. reflexivity.
Qed.

Lemma formatDiffItem_changed_cell_witness :
  signbit (of_Z 100) = false
  /\ formatDiffItem {| from := Some Scenario.two_thirds; to := Some (of_Z 100) |}
     = " 100% ![33.3%](https://raw.githubusercontent.com/kzkn/simplecov-resultset-diff-action/main/assets/up/33/33.3.svg)".
Proof.
  split; [reflexivity|].
  assert (Hnt : 0 <= 1000 <= 1000) by lia.
  assert (Hnd : 0 <= 333 <= 1000) by lia.
  rewrite (formatDiffItem_changed_cell Scenario.two_thirds (of_Z 100) 1000 333
             Hnt eq_refl eq_refl Hnd eq_refl).
  vm_compute. reflexivity.
Defined.

(** ** Cells and filenames *)

(** X7. A cell is blank exactly when the metric is absent on both sides:
    any cell with a value on either side carries a label or a percentage. *)
Theorem formatDiffItem_blank_iff (item : DiffItem) :
  formatDiffItem item = "" <-> from item = None /\ to item = None.
Proof.
  destruct item as [[f|] [t|]]; cbn [from to].
  - destruct (formatDiffItem_both_shape f t) as [rest ->].
    split; [discriminate | intros [H _]; discriminate H].
  - change (formatDiffItem {| from := Some f; to := None |}) with "DELETE".
    split; [discriminate | intros [H _]; discriminate H].
  - destruct (formatDiffItem_new_shape t) as [rest ->].
    split; [discriminate | intros [_ H]; discriminate H].
  - change (formatDiffItem {| from := None; to := None |}) with "".
    split; [intros _; split; reflexivity | reflexivity].
Qed.

Lemma trimWorkspacePath_cases (WORKSPACE filename : string) :
  trimWorkspacePath WORKSPACE filename = filename
  \/ filename = (WORKSPACE +:+ "/") +:+ trimWorkspacePath WORKSPACE filename.
Proof.
  unfold trimWorkspacePath.
  destruct (startsWith filename (WORKSPACE +:+ "/")) eqn:Hs; [|left; reflexivity].
  right. apply startsWith_inv in Hs as [rest ->]. rewrite slice_app. reflexivity.
Qed.

(** X8. Trimming never lengthens a filename, and two filenames are shown
    alike only if they are equal or one is the other under the workspace
    root: the absolute and the relative spelling of a path collide. *)
Theorem trimWorkspacePath_collisions (WORKSPACE : string) :
  (forall filename,
      (String.length (trimWorkspacePath WORKSPACE filename) <= String.length filename)%nat)
  /\ (forall f1 f2,
        trimWorkspacePath WORKSPACE f1 = trimWorkspacePath WORKSPACE f2 ->
        f1 = f2 \/ f1 = (WORKSPACE +:+ "/") +:+ f2 \/ f2 = (WORKSPACE +:+ "/") +:+ f1)
  /\ (forall rest,
        startsWith rest (WORKSPACE +:+ "/") = false ->
        trimWorkspacePath WORKSPACE ((WORKSPACE +:+ "/") +:+ rest)
        = trimWorkspacePath WORKSPACE rest).
Proof.
  split; [|split].
  - intros filename.
    destruct (trimWorkspacePath_cases WORKSPACE filename) as [-> | H]; [lia|].
    rewrite H at 2. rewrite length_append. lia.
  - intros f1 f2 Heq.
    destruct (trimWorkspacePath_cases WORKSPACE f1) as [H1|H1],
             (trimWorkspacePath_cases WORKSPACE f2) as [H2|H2].
    + left. congruence.
    + right. right. rewrite H2 at 1. rewrite <- Heq, H1. reflexivity.
    + right. left. rewrite H1 at 1. rewrite Heq, H2. reflexivity.
    + left. rewrite H1, H2, Heq. reflexivity.
  - intros rest Hrest. unfold trimWorkspacePath.
    rewrite startsWith_app, slice_app, Hrest. reflexivity.
Qed.

Lemma trimWorkspacePath_collisions_witness :
  startsWith "app/a.rb" ("/w" +:+ "/") = false
  /\ trimWorkspacePath "/w" (("/w" +:+ "/") +:+ "app/a.rb")
     = trimWorkspacePath "/w" "app/a.rb".
Proof.
  split; [reflexivity|].
  apply (proj2 (proj2 (trimWorkspacePath_collisions "/w"))). reflexivity.
Defined.

(** ** Outcomes of a run *)

Section Outcomes.

Variable WORKSPACE : string.
Variable markdownTable : list (list string) -> string.
Variable host : Host.

Lemma run_missing_input_eq :
  existsSync host (inputPath host "base-resultset-path")
  && existsSync host (inputPath host "head-resultset-path") = false ->
  run WORKSPACE markdownTable host
  = [SetFailed ((if existsSync host (inputPath host "base-resultset-path")
                 then inputPath host "head-resultset-path"
                 else inputPath host "base-resultset-path")
                  +:+ " does not exist!")].
Proof.
  intros Hmissing. unfold run, run_body, doesPathExists.
  fold (inputPath host "base-resultset-path") (inputPath host "head-resultset-path").
  destruct (existsSync host (inputPath host "base-resultset-path")) eqn:Hb.
  - cbn [andb] in Hmissing. unfold bind at 1. cbn [ret].
    unfold bind at 1. rewrite Hmissing. reflexivity.
  - reflexivity.
Qed.

Lemma run_unreadable_eq (e : string) :
  existsSync host (inputPath host "base-resultset-path") = true ->
  existsSync host (inputPath host "head-resultset-path") = true ->
  (readResultset host (resolve host WORKSPACE (inputPath host "base-resultset-path"))
   = Throw e
   \/ (exists raw,
         readResultset host (resolve host WORKSPACE (inputPath host "base-resultset-path"))
         = Normal raw)
      /\ readResultset host (resolve host WORKSPACE (inputPath host "head-resultset-path"))
         = Throw e) ->
  run WORKSPACE markdownTable host = [SetFailed e].
Proof.
  intros Hb Hh Hread.
  unfold run, run_body, doesPathExists, parseResultset. unfold inputPath in *.
  run_step Hb. run_step Hh.
  destruct Hread as [Hrb | [[raw Hrb] Hrh]].
  - unfold bind at 1. rewrite Hrb. reflexivity.
  - run_step Hrb. unfold bind at 1. rewrite Hrh. reflexivity.
Qed.

Lemma run_unbuildable_eq (base_raw head_raw : ResultSet) (e : string) :
  existsSync host (inputPath host "base-resultset-path") = true ->
  existsSync host (inputPath host "head-resultset-path") = true ->
  readResultset host (resolve host WORKSPACE (inputPath host "base-resultset-path"))
  = Normal base_raw ->
  readResultset host (resolve host WORKSPACE (inputPath host "head-resultset-path"))
  = Normal head_raw ->
  (build base_raw = Throw e
   \/ (exists base, build base_raw = Normal base) /\ build head_raw = Throw e) ->
  run WORKSPACE markdownTable host = [SetFailed e].
Proof.
  intros Hb Hh Hrb Hrh Hbuild.
  unfold run, run_body, doesPathExists, parseResultset. unfold inputPath in *.
  run_step Hb. run_step Hh. run_step Hrb. run_step Hrh.
  destruct Hbuild as [Hbb | [[base Hbb] Hbh]].
  - unfold bind at 1. rewrite Hbb. reflexivity.
  - run_step Hbb. unfold bind at 1. rewrite Hbh. reflexivity.
Qed.

(** From two built documents on, the log of a run is fixed by the API client,
    the pull-request number and the API's answer. *)
Lemma run_reaches_publication (base_raw head_raw : ResultSet) (base head : Coverage) :
  existsSync host (inputPath host "base-resultset-path") = true ->
  existsSync host (inputPath host "head-resultset-path") = true ->
  readResultset host (resolve host WORKSPACE (inputPath host "base-resultset-path"))
  = Normal base_raw ->
  readResultset host (resolve host WORKSPACE (inputPath host "head-resultset-path"))
  = Normal head_raw ->
  build base_raw = Normal base ->
  build head_raw = Normal head ->
  exists sha infos,
    commitSha host [] = (Normal sha, infos)
    /\ forallb isInfo infos = true
    /\ run WORKSPACE markdownTable host
       = match getOctokit host (getInput host "token") with
         | Throw e => infos ++ [SetFailed e]
         | Normal _ =>
             let body := report WORKSPACE markdownTable base head sha in
             if falsy (issue_number (context host)) then
               infos ++ [Warning "Cannot find the PR id."; Info body]
             else
               let comment :=
                 CreateComment (repo_owner (context host)) (repo_repo (context host))
                               (default 0 (issue_number (context host))) body in
               match createComment host (repo_owner (context host))
                                   (repo_repo (context host))
                                   (default 0 (issue_number (context host))) body with
               | Normal _ => infos ++ [comment]
               | Throw e => infos ++ [comment; SetFailed e]
               end
         end.
Proof.
  intros Hb Hh Hrb Hrh Hbb Hbh.
  destruct (commitSha_infos host) as (sha & infos & Hsha & Hinfos).
  exists sha, infos. split; [rewrite Hsha; reflexivity|]. split; [exact Hinfos|].
  unfold run, run_body, doesPathExists, parseResultset, report. unfold inputPath in *.
  run_step Hb. run_step Hh. run_step Hrb. run_step Hrh.
  run_step Hbb. run_step Hbh. run_step Hsha.
  unfold bind at 1. cbn [lift].
  destruct (getOctokit host (getInput host "token")) as [[]|e]; [|reflexivity].
  cbv zeta. destruct (falsy (issue_number (context host))).
  - unfold bind, emit. rewrite <- app_assoc. reflexivity.
  - unfold bind, emit, lift.
    destruct (createComment host _ _ _ _) as [[]|e].
    + reflexivity.
    + rewrite <- app_assoc. reflexivity.
Qed.

End Outcomes.

(** X9. When a result set is missing from the disk, the run fails with the
    message [<path> does not exist!] for the first missing path, base before
    head, and does nothing else: nothing is read, logged or published. *)
Theorem run_missing_input
    (WORKSPACE : string) (markdownTable : list (list string) -> string) (host : Host) :
  let base_path := inputPath host "base-resultset-path" in
  let head_path := inputPath host "head-resultset-path" in
  existsSync host base_path && existsSync host head_path = false ->
  run WORKSPACE markdownTable host
  = [SetFailed ((if existsSync host base_path then head_path else base_path)
                  +:+ " does not exist!")].
Proof.
  intros base_path head_path. apply run_missing_input_eq.
Qed.

Lemma run_missing_input_witness :
  existsSync Hosts.missing_head (inputPath Hosts.missing_head "base-resultset-path")
  && existsSync Hosts.missing_head (inputPath Hosts.missing_head "head-resultset-path")
  = false
  /\ run "/w" Table.render Hosts.missing_head
     = [SetFailed "/w/head.json does not exist!"].
Proof.
  split; [reflexivity|].
  exact (run_missing_input "/w" Table.render Hosts.missing_head eq_refl).
Defined.

(** X10. When both result sets exist and reading or parsing one of them
    throws, the run fails with that error's message as its only effect; the
    base result set is tried first. *)
Theorem run_unreadable_resultset
    (WORKSPACE : string) (markdownTable : list (list string) -> string) (host : Host)
    (e : string) :
  let base_path := inputPath host "base-resultset-path" in
  let head_path := inputPath host "head-resultset-path" in
  existsSync host base_path = true ->
  existsSync host head_path = true ->
  (readResultset host (resolve host WORKSPACE base_path) = Throw e
   \/ (exists raw, readResultset host (resolve host WORKSPACE base_path) = Normal raw)
      /\ readResultset host (resolve host WORKSPACE head_path) = Throw e) ->
  run WORKSPACE markdownTable host = [SetFailed e].
Proof.
  intros base_path head_path. apply run_unreadable_eq.
Qed.

Lemma run_unreadable_resultset_witness :
  run "/w" Table.render Hosts.corrupt_head = [SetFailed "Unexpected end of JSON input"].
Proof.
  apply (run_unreadable_resultset "/w" Table.render Hosts.corrupt_head);
    [reflexivity | reflexivity |].
  right. split; [eexists; reflexivity | reflexivity].
Defined.

(** X11. The API client is created before the pull request is looked for:
    when creating it throws, the run fails with that message after the notes
    of the commit resolution, whether or not there is a pull request, and the
    report is neither logged nor published. *)
Theorem run_without_api_client
    (WORKSPACE : string) (markdownTable : list (list string) -> string) (host : Host)
    (base_raw head_raw : ResultSet) (base head : Coverage) (e : string) :
  let base_path := inputPath host "base-resultset-path" in
  let head_path := inputPath host "head-resultset-path" in
  existsSync host base_path = true ->
  existsSync host head_path = true ->
  readResultset host (resolve host WORKSPACE base_path) = Normal base_raw ->
  readResultset host (resolve host WORKSPACE head_path) = Normal head_raw ->
  build base_raw = Normal base ->
  build head_raw = Normal head ->
  getOctokit host (getInput host "token") = Throw e ->
  exists sha infos,
    commitSha host [] = (Normal sha, infos)
    /\ forallb isInfo infos = true
    /\ run WORKSPACE markdownTable host = infos ++ [SetFailed e].
Proof.
  intros base_path head_path Hb Hh Hrb Hrh Hbb Hbh Hocto.
  destruct (run_reaches_publication WORKSPACE markdownTable host _ _ _ _
              Hb Hh Hrb Hrh Hbb Hbh) as (sha & infos & Hsha & Hinfos & Hrun).
  exists sha, infos. rewrite Hocto in Hrun. auto.
Qed.

Lemma run_without_api_client_witness :
  falsy (issue_number (context Hosts.no_token)) = true
  /\ run "/w" Table.render Hosts.no_token
     = [Info "Pull sha from pushEvent";
        SetFailed "Parameter token or opts.auth is required"].
Proof.
  split; [reflexivity|].
  destruct (run_without_api_client "/w" Table.render Hosts.no_token
              Scenario.base_resultset Scenario.head_resultset
              Scenario.base Scenario.head
              "Parameter token or opts.auth is required"
              eq_refl eq_refl eq_refl eq_refl eq_refl eq_refl eq_refl)
    as (sha & infos & Hsha & _ & Hrun).
  vm_compute in Hsha. injection Hsha as _ <-. exact Hrun.
Defined.

(** X12. With a pull-request number that is not 0, a run that reaches
    publication makes one comment-creation call, on the repository and the
    number of the context and with the report as body, after the notes of the
    commit resolution; it logs no warning and no report; and it fails exactly
    when the call throws, with the call's message. *)
Theorem run_publishes
    (WORKSPACE : string) (markdownTable : list (list string) -> string) (host : Host)
    (base_raw head_raw : ResultSet) (base head : Coverage) (id : Z) :
  let base_path := inputPath host "base-resultset-path" in
  let head_path := inputPath host "head-resultset-path" in
  let owner := repo_owner (context host) in
  let repo := repo_repo (context host) in
  existsSync host base_path = true ->
  existsSync host head_path = true ->
  readResultset host (resolve host WORKSPACE base_path) = Normal base_raw ->
  readResultset host (resolve host WORKSPACE head_path) = Normal head_raw ->
  build base_raw = Normal base ->
  build head_raw = Normal head ->
  getOctokit host (getInput host "token") = Normal tt ->
  issue_number (context host) = Some id ->
  id <> 0 ->
  exists sha infos,
    commitSha host [] = (Normal sha, infos)
    /\ forallb isInfo infos = true
    /\ let body := report WORKSPACE markdownTable base head sha in
       run WORKSPACE markdownTable host
       = infos ++ CreateComment owner repo id body
                  :: match createComment host owner repo id body with
                     | Normal _ => []
                     | Throw e => [SetFailed e]
                     end.
Proof.
  intros base_path head_path owner repo Hb Hh Hrb Hrh Hbb Hbh Hocto Hid Hnz.
  destruct (run_reaches_publication WORKSPACE markdownTable host _ _ _ _
              Hb Hh Hrb Hrh Hbb Hbh) as (sha & infos & Hsha & Hinfos & Hrun).
  exists sha, infos. split; [exact Hsha|]. split; [exact Hinfos|].
  rewrite Hocto, Hid in Hrun. cbv zeta in Hrun.
  cbn [falsy default from_option Datatypes.id] in Hrun.
  destruct (Z.eqb_spec id 0) as [?|_]; [contradiction|].
  cbv zeta. fold owner repo in Hrun. rewrite Hrun.
  destruct (createComment host owner repo id _) as [[]|e]; reflexivity.
Qed.

Lemma run_publishes_witness :
  issue_number (context Hosts.forbidden) = Some 42
  /\ exists body,
       run "/w" Table.render Hosts.forbidden
       = [Info "Unsupported event"; Info "eventName: pull_request"; Info "{}";
          CreateComment "empiricalsec" "example" 42 body;
          SetFailed "Resource not accessible by integration"].
Proof.
  split; [reflexivity|].
  assert (Hnz : 42 <> 0) by discriminate.
  destruct (run_publishes "/w" Table.render Hosts.forbidden
              Scenario.base_resultset Scenario.head_resultset
              Scenario.base Scenario.head 42
              eq_refl eq_refl eq_refl eq_refl eq_refl eq_refl eq_refl eq_refl Hnz)
    as (sha & infos & Hsha & _ & Hrun).
  vm_compute in Hsha. injection Hsha as <- <-.
  eexists. exact Hrun.
Defined.

(** X13. Every run, whatever the host, consists of informational notes
    followed by exactly one ending: a failure status; or the warning and the
    logged report; or one comment-creation call, followed by a failure status
    only if the call threw.  So nothing follows a failure, a run never both
    warns and publishes, and it never publishes twice. *)
Theorem run_shape
    (WORKSPACE : string) (markdownTable : list (list string) -> string) (host : Host) :
  exists infos,
    forallb isInfo infos = true
    /\ ((exists e, run WORKSPACE markdownTable host = infos ++ [SetFailed e])
        \/ (exists body,
              run WORKSPACE markdownTable host
              = infos ++ [Warning "Cannot find the PR id."; Info body])
        \/ (exists owner repo id body,
              run WORKSPACE markdownTable host = infos ++ [CreateComment owner repo id body]
              \/ exists e,
                   run WORKSPACE markdownTable host
                   = infos ++ [CreateComment owner repo id body; SetFailed e])).
Proof.
  set (base_path := inputPath host "base-resultset-path").
  set (head_path := inputPath host "head-resultset-path").
  destruct (existsSync host base_path && existsSync host head_path) eqn:Hexists.
  2: { exists []. split; [reflexivity|]. left. eexists.
       exact (run_missing_input_eq WORKSPACE markdownTable host Hexists). }
  apply andb_true_iff in Hexists as [Hb Hh].
  destruct (readResultset host (resolve host WORKSPACE base_path)) as [base_raw|e] eqn:Hrb.
  2: { exists []. split; [reflexivity|]. left. exists e.
       apply run_unreadable_eq; auto. }
  destruct (readResultset host (resolve host WORKSPACE head_path)) as [head_raw|e] eqn:Hrh.
  2: { exists []. split; [reflexivity|]. left. exists e.
       apply run_unreadable_eq; eauto. }
  destruct (build base_raw) as [base|e] eqn:Hbb.
  2: { exists []. split; [reflexivity|]. left. exists e.
       eapply run_unbuildable_eq; eauto. }
  destruct (build head_raw) as [head|e] eqn:Hbh.
  2: { exists []. split; [reflexivity|]. left. exists e.
       eapply run_unbuildable_eq; eauto. }
  destruct (run_reaches_publication WORKSPACE markdownTable host _ _ _ _
              Hb Hh Hrb Hrh Hbb Hbh) as (sha & infos & _ & Hinfos & Hrun).
  exists infos. split; [exact Hinfos|]. rewrite Hrun.
  destruct (getOctokit host (getInput host "token")) as [[]|e]; [|left; eauto].
  cbv zeta. destruct (falsy (issue_number (context host))); [right; left; eauto|].
  right. right. do 4 eexists.
  destruct (createComment host _ _ _ _) as [[]|e]; [left; reflexivity | right; eauto].
Qed.

(** X14. Only a push and a synchronize of a pull request take the commit
    from the event: any other event, a pull request with another action
    included, is noted as unsupported with its name and payload, and the
    commit of the context is used; resolving the commit never throws. *)
Theorem commitSha_unsupported (host : Host) (log : list event) :
  let ctx := context host in
  eventName ctx <> "push" ->
  (eventName ctx = "pull_request" -> payload_action ctx <> Some "synchronize") ->
  commitSha host log
  = (Normal (sha ctx),
     log ++ [Info "Unsupported event";
             Info ("eventName: " +:+ eventName ctx);
             Info (payload_json ctx)]).
Proof.
  intros ctx Hpush Hsync. unfold commitSha. fold ctx.
  destruct (String.eqb_spec (eventName ctx) "push") as [?|_]; [contradiction|].
  assert (String.eqb (eventName ctx) "pull_request"
          && bool_decide (payload_action ctx = Some "synchronize") = false) as ->.
  { destruct (String.eqb_spec (eventName ctx) "pull_request") as [Hpr|_]; [|reflexivity].
    apply bool_decide_eq_false, Hsync, Hpr. }
  unfold bind, emit, ret. rewrite <- !app_assoc. reflexivity.
Qed.

Lemma commitSha_unsupported_witness :
  eventName Hosts.opened_context <> "push"
  /\ commitSha Hosts.pull_request []
     = (Normal "9d1c0aa",
        [Info "Unsupported event"; Info "eventName: pull_request"; Info "{}"]).
Proof.
  assert (H : eventName Hosts.opened_context <> "push") by discriminate.
  split; [exact H|].
  apply (commitSha_unsupported Hosts.pull_request [] H).
  intros _. discriminate.
Defined.
